(** * Ma-Poche: the ledger aggregation and reconciliation code of [src/App.tsx]

    A shallow embedding of the pure computations of the React component
    (sums by type, month/type/category sums, budget lookups and edits,
    month rows, the top-expenses ranking, the chart scale, entry creation
    and the JSON export/import path) and of its other handlers and effects
    (deleting and clearing, the form, the selected month, the budgets in
    storage, the Dashboard figures, the ticks and bars of the bar chart),
    followed by the properties proved for them.

    Numbers are JavaScript numbers, that is IEEE 754 binary64 values: they
    are modelled by Rocq's primitive [float], whose operations are the
    binary64 operations with round-to-nearest-even.  Strings are sequences
    of UTF-16 code units; the model keeps the code units below 256, one
    [ascii] each. *)

From stdpp Require Import gmap strings list fin_maps.
From Stdlib Require Import ZArith Floats Ascii String List Permutation Sorted Lia Bool.
From Stdlib Require Import DecimalString OrderedTypeEx.
Import ListNotations.

Set Warnings "-register-all".

Local Open Scope string_scope.
Local Open Scope list_scope.
Local Open Scope Z_scope.

(** ** JavaScript built-ins used by the component *)

Module JS.

(** [Number.isFinite(x)] on a number. *)
Definition Number_isFinite (x : float) : bool := is_finite x.

(** [ToBoolean] on a number: [+0], [-0] and [NaN] are falsy. *)
Definition ToBoolean_number (x : float) : bool := negb (is_zero x || is_nan x).

(** [x || d] where [x] is a number. *)
Definition or_else (x d : float) : float := if ToBoolean_number x then x else d.

(** [ToBoolean] on a string: only the empty string is falsy. *)
Definition ToBoolean_string (s : string) : bool :=
  match s with EmptyString => false | String _ _ => true end.

(** [+0] and [-0] told apart, as [Math.max] does. *)
Definition is_pos_zero (x : float) : bool := is_zero x && negb (get_sign x).
Definition is_neg_zero (x : float) : bool := is_zero x && get_sign x.

(** [Math.max(...coerced)]: the loop of ECMA-262 21.3.2.24 from the running
    value [highest]; a NaN argument makes the result NaN. *)
Fixpoint Math_max_from (highest : float) (coerced : list float) : float :=
  match coerced with
  | [] => highest
  | n :: rest =>
      if is_nan n then nan
      else
        let highest := if is_pos_zero n && is_neg_zero highest then n else highest in
        let highest := if (highest <? n)%float then n else highest in
        Math_max_from highest rest
  end.

Definition Math_max (args : list float) : float := Math_max_from neg_infinity args.

Definition Math_abs (x : float) : float := abs x.

(** [s.slice(0, n)]. *)
Definition slice0 (n : nat) (s : string) : string := substring 0 n s.

(** White space and line terminators ([StrWhiteSpaceChar]) among the code
    units below 256: TAB, LF, VT, FF, CR, SP and NBSP. *)
Definition is_StrWhiteSpaceChar (c : ascii) : bool :=
  let n := nat_of_ascii c in
  (n =? 9)%nat || (n =? 10)%nat || (n =? 11)%nat || (n =? 12)%nat
  || (n =? 13)%nat || (n =? 32)%nat || (n =? 160)%nat.

Fixpoint trimStart_chars (l : list ascii) : list ascii :=
  match l with
  | c :: l' => if is_StrWhiteSpaceChar c then trimStart_chars l' else l
  | [] => []
  end.

Definition trim_chars (l : list ascii) : list ascii :=
  rev (trimStart_chars (rev (trimStart_chars l))).

(** [s.trim()]. *)
Definition trim (s : string) : string :=
  string_of_list_ascii (trim_chars (list_ascii_of_string s)).

(** *** [Number(string)]: StringToNumber (ECMA-262 7.1.4.1.1) *)

(** The value of a digit in a base up to 16, if it is one. *)
Definition digit_value (base : Z) (c : ascii) : option Z :=
  let n := Z.of_nat (nat_of_ascii c) in
  let v :=
    if (48 <=? n) && (n <=? 57) then Some (n - 48)
    else if (97 <=? n) && (n <=? 102) then Some (n - 87)
    else if (65 <=? n) && (n <=? 70) then Some (n - 55)
    else None in
  match v with
  | Some d => if d <? base then Some d else None
  | None => None
  end.

(** Reads the longest run of digits: the value read so far, how many digits
    were read, and what follows them. *)
Fixpoint read_digits (base acc : Z) (count : nat) (l : list ascii)
  : Z * nat * list ascii :=
  match l with
  | c :: l' =>
      match digit_value base c with
      | Some d => read_digits base (acc * base + d) (S count) l'
      | None => (acc, count, l)
      end
  | [] => (acc, count, [])
  end.

(** The Number value of the integer [m] times two to the [e]: rounded to
    the nearest binary64 value, ties to even, infinite beyond the range. *)
Definition round_to_float (m e : Z) : float :=
  SF2Prim (binary_normalize prec emax m e false).

(** The Number value of [m * 10^e] for [m >= 0].  A negative exponent is a
    division: the quotient is taken with 64 bits more than the divisor and
    a sticky bit for the remainder, which rounds as the exact value does. *)
Definition decimal_to_float (m e : Z) : float :=
  if m =? 0 then PrimFloat.zero
  else if 0 <=? e then round_to_float (m * 10 ^ e) 0
  else
    let d := 10 ^ (- e) in
    let k := Z.log2 d + 64 in
    let (q, r) := Z.div_eucl (m * 2 ^ k) d in
    round_to_float (2 * q + (if r =? 0 then 0 else 1)) (- k - 1).

(** [ExponentPart opt] at the end of the literal: [None] when what is left
    is neither empty nor an exponent part. *)
Definition read_exponent (l : list ascii) : option Z :=
  match l with
  | [] => Some 0
  | c :: l' =>
      if (Ascii.eqb c "e" || Ascii.eqb c "E")%char then
        let '(neg, l'') :=
          match l' with
          | s :: r => if Ascii.eqb s "-" then (true, r)
                      else if Ascii.eqb s "+" then (false, r) else (false, l')
          | [] => (false, l')
          end in
        match read_digits 10 0 0 l'' with
        | (_, O, _) => None
        | (v, S _, []) => Some (if neg then - v else v)
        | (_, S _, _ :: _) => None
        end
      else None
  end.

(** [StrUnsignedDecimalLiteral]: [Infinity], or digits with an optional
    fraction and exponent, at least one digit before or after the dot. *)
Definition read_unsigned_decimal (l : list ascii) : option float :=
  if String.eqb (string_of_list_ascii l) "Infinity" then Some infinity
  else
    let '(ip, ni, l1) := read_digits 10 0 0 l in
    let '(m, nf, l2) :=
      match l1 with
      | c :: r => if Ascii.eqb c "." then read_digits 10 ip 0 r else (ip, O, l1)
      | [] => (ip, O, l1)
      end in
    match (ni + nf)%nat with
    | O => None
    | S _ =>
        match read_exponent l2 with
        | Some e => Some (decimal_to_float m (e - Z.of_nat nf))
        | None => None
        end
    end.

(** [NonDecimalIntegerLiteral]: [0x], [0o] or [0b] and at least one digit. *)
Definition read_non_decimal (l : list ascii) : option float :=
  match l with
  | z :: p :: r =>
      if Ascii.eqb z "0" then
        let base :=
          if (Ascii.eqb p "x" || Ascii.eqb p "X")%char then Some 16
          else if (Ascii.eqb p "o" || Ascii.eqb p "O")%char then Some 8
          else if (Ascii.eqb p "b" || Ascii.eqb p "B")%char then Some 2
          else None in
        match base with
        | Some b =>
            match read_digits b 0 0 r with
            | (v, S _, []) => Some (round_to_float v 0)
            | _ => None
            end
        | None => None
        end
      else None
  | _ => None
  end.

(** [StringToNumber]: white space is trimmed, the empty string is [+0], a
    string that is not a numeric literal is [NaN]. *)
Definition StringToNumber (s : string) : float :=
  match trim_chars (list_ascii_of_string s) with
  | [] => PrimFloat.zero
  | (c :: r) as l =>
      match read_non_decimal l with
      | Some v => v
      | None =>
          let signed :=
            if Ascii.eqb c "-" then option_map opp (read_unsigned_decimal r)
            else if Ascii.eqb c "+" then read_unsigned_decimal r
            else read_unsigned_decimal l in
          match signed with
          | Some v => v
          | None => nan
          end
      end
  end.

(** [Number(v)]: the identity on a number, StringToNumber on a string. *)
Class ToNumber (A : Type) := Number : A -> float.
#[global] Instance ToNumber_number : ToNumber float := fun x => x.
#[global] Instance ToNumber_string : ToNumber string := StringToNumber.

End JS.

Import JS.
Local Open Scope float_scope.
Local Open Scope Z_scope.

(** ** Data model (lines 3-14 and 56-70) *)

Inductive TxType := Income | Expenses | Savings | Investments.

(** The string a [TxType] is at run time. *)
Definition TxType_string (t : TxType) : string :=
  match t with
  | Income => "Income"
  | Expenses => "Expenses"
  | Savings => "Savings"
  | Investments => "Investments"
  end.

(** [a === b] on two values of type [TxType]. *)
Definition TxType_eqb (a b : TxType) : bool :=
  String.eqb (TxType_string a) (TxType_string b).

Record Transaction := {
  id : string;
  date : string;
  type : TxType;
  category : string;
  amount : float;
  details : option string
}.

(** [Object.keys(CATEGORIES)], in declaration order. *)
Definition TxTypes : list TxType := [Income; Expenses; Savings; Investments].

Definition CATEGORIES (t : TxType) : list string :=
  match t with
  | Income => ["Salary"; "Scholarship"; "Family Support"; "Side hustle"]
  | Expenses =>
      ["Rent"; "Transport"; "Groceries"; "Phone & Internet"; "Subscriptions";
       "School & Books"; "Health"; "Leisure"]
  | Savings => ["Emergency Fund"; "Travel"; "Other Savings"]
  | Investments => ["Crypto"; "Stocks"; "Other Investment"]
  end.

(** ** Aggregation over the transactions (lines 72-122) *)

Definition monthKeyFromDate (dateStr : string) : string := slice0 7 dateStr.

(** The summand an entry contributes: [Number(t.amount) || 0]. *)
Definition amountOrZero (t : Transaction) : float :=
  or_else (Number (amount t)) 0%float.

(** [.reduce((acc, t) => acc + (Number(t.amount) || 0), 0)]: the sum from
    the left, starting at 0. *)
Definition sumAmounts (selected : list Transaction) : float :=
  fold_left (fun acc t => (acc + amountOrZero t)%float) selected 0%float.

Definition sumByType (transactions : list Transaction) (ty : TxType) : float :=
  sumAmounts (List.filter (fun t => TxType_eqb (type t) ty) transactions).

Definition sumForMonthTypeCategory
    (transactions : list Transaction) (monthKey : string) (ty : TxType)
    (cat : string) : float :=
  sumAmounts
    (List.filter
       (fun t =>
          String.eqb (monthKeyFromDate (date t)) monthKey
          && TxType_eqb (type t) ty
          && String.eqb (category t) cat)
       transactions).

(** ** Chart scales (lines 242-243 and 258) *)

(** The scale of [BarChart]: non-finite values count as 0, no absolute
    value is taken. *)
Definition BarChart_max (series : list (list float)) : float :=
  let allValues := List.concat series in
  Math_max (1%float :: List.map (fun v => if Number_isFinite v then v else 0%float) allValues).

(** The scale of [LineChart]. *)
Definition LineChart_max (values : list float) : float :=
  Math_max (1%float :: List.map (fun v => Math_abs v) values).

(** ** The component's state and its operations (lines 359-546) *)

Abbreviation BudgetStore := (gmap string float).

(** The key of an allocation: [`${monthKey}|${t}|${cat}`]. *)
Definition budgetKey (monthKey : string) (t : TxType) (cat : string) : string :=
  monthKey ++ "|" ++ TxType_string t ++ "|" ++ cat.

Record State := {
  transactions : list Transaction;
  form_date : string;
  form_type : TxType;
  form_category : string;
  form_amount : string;
  form_details : string;
  budgets : BudgetStore;
  selectedMonth : string
}.

(** [addTransaction] (lines 399-415).  [fresh] is the identifier the
    environment hands out ([crypto.randomUUID()] or its fallback). *)
Definition addTransaction (fresh : string) (s : State) : State :=
  let n := Number (form_amount s) in
  if negb (ToBoolean_string (form_date s))
     || negb (ToBoolean_string (TxType_string (form_type s)))
     || negb (ToBoolean_string (form_category s))
     || negb (Number_isFinite n)
  then s
  else
    let tx :=
      {| id := fresh;
         date := form_date s;
         type := form_type s;
         category := form_category s;
         amount := n;
         details :=
           if ToBoolean_string (trim (form_details s))
           then Some (trim (form_details s)) else None |} in
    {| transactions := tx :: transactions s;
       form_date := form_date s;
       form_type := form_type s;
       form_category := form_category s;
       form_amount := "";
       form_details := "";
       budgets := budgets s;
       selectedMonth := selectedMonth s |}.

(** [new Set()] filled in iteration order, then [Array.from]: each key once,
    at its first occurrence. *)
Fixpoint Set_add (k : string) (set : list string) : list string :=
  match set with
  | [] => [k]
  | x :: r => if String.eqb x k then set else x :: Set_add k r
  end.

(** [Array.prototype.sort()] with no comparator on an array of strings:
    ascending by code units.  A stable insertion sort. *)
Fixpoint sort_insert (k : string) (sorted : list string) : list string :=
  match sorted with
  | [] => [k]
  | x :: r => if String.ltb k x then k :: sorted else x :: sort_insert k r
  end.

Definition Array_sort_strings (l : list string) : list string :=
  fold_left (fun sorted k => sort_insert k sorted) l [].

Definition allMonthsInTx (transactions : list Transaction) : list string :=
  Array_sort_strings
    (fold_left (fun set t => Set_add (monthKeyFromDate (date t)) set) transactions []).

(** [budgets[key] ?? 0]. *)
Definition getBudget (budgets : BudgetStore) (monthKey : string) (t : TxType)
    (cat : string) : float :=
  match budgets !! budgetKey monthKey t cat with
  | Some v => v
  | None => 0%float
  end.

(** [setBudget]: the new map [{...prev, [key]: value}] with a non-finite
    value replaced by 0. *)
Definition setBudget (budgets : BudgetStore) (monthKey : string) (t : TxType)
    (cat : string) (value : float) : BudgetStore :=
  <[ budgetKey monthKey t cat := if Number_isFinite value then value else 0%float ]> budgets.

Definition monthBudgetTotal (budgets : BudgetStore) (monthKey : string)
    (t : TxType) : float :=
  fold_left (fun acc cat => (acc + getBudget budgets monthKey t cat)%float)
    (CATEGORIES t) 0%float.

Definition monthTrackedTotal (transactions : list Transaction)
    (monthKey : string) (t : TxType) : float :=
  fold_left
    (fun acc cat => (acc + sumForMonthTypeCategory transactions monthKey t cat)%float)
    (CATEGORIES t) 0%float.

Record MonthRow := {
  month : string;
  income : float;
  expenses : float;
  savings : float;
  investments : float;
  net : float
}.

(** The row [monthTotals] builds for the month [m] (lines 476-489). *)
Definition monthRow (transactions : list Transaction) (m : string) : MonthRow :=
  let income := monthTrackedTotal transactions m Income in
  let expenses := monthTrackedTotal transactions m Expenses in
  let savings := monthTrackedTotal transactions m Savings in
  let investments := monthTrackedTotal transactions m Investments in
  {| month := m;
     income := income;
     expenses := expenses;
     savings := savings;
     investments := investments;
     net := (income - expenses - savings - investments)%float |}.

Definition monthTotals (transactions : list Transaction) : list MonthRow :=
  List.map (monthRow transactions) (allMonthsInTx transactions).

Definition zeroRow (m : string) : MonthRow :=
  {| month := m; income := 0; expenses := 0; savings := 0; investments := 0;
     net := 0 |}%float.

(** [selectedMonthStats] (lines 492-504): [find(...) ?? {...zeros}]. *)
Definition selectedMonthStats (transactions : list Transaction)
    (selectedMonth : string) : MonthRow :=
  match List.find (fun x => String.eqb (month x) selectedMonth)
          (monthTotals transactions) with
  | Some found => found
  | None => zeroRow selectedMonth
  end.

(** One header of the Plan tab (lines 792-795): the type, its budget total,
    its tracked total and the variance shown beside them. *)
Record PlanHeader := {
  plan_type : TxType;
  budgetTotal : float;
  trackedTotal : float;
  variance : float
}.

Definition planHeaders (s : State) : list PlanHeader :=
  List.map
    (fun t =>
       let budgetTotal := monthBudgetTotal (budgets s) (selectedMonth s) t in
       let trackedTotal := monthTrackedTotal (transactions s) (selectedMonth s) t in
       {| plan_type := t;
          budgetTotal := budgetTotal;
          trackedTotal := trackedTotal;
          variance := (budgetTotal - trackedTotal)%float |})
    TxTypes.

(** A row of [topExpenses]. *)
Record TopRow := { top_category : string; total : float }.

(** [Array.prototype.sort(cmp)]: a stable insertion sort.  [x] goes before
    the first element it does not have to follow, that is the first [y]
    for which [cmp(x, y)] is not positive (a NaN result counts as 0). *)
Fixpoint sort_insert_by {A : Type} (cmp : A -> A -> float) (x : A)
    (sorted : list A) : list A :=
  match sorted with
  | [] => [x]
  | y :: r =>
      if (0 <? cmp x y)%float then y :: sort_insert_by cmp x r
      else x :: sorted
  end.

Definition Array_sort_by {A : Type} (cmp : A -> A -> float) (l : list A) : list A :=
  fold_right (sort_insert_by cmp) [] l.

(** [topExpenses] (lines 535-546). *)
Definition topExpenses (transactions : list Transaction) (selectedMonth : string)
    : list TopRow :=
  let m := selectedMonth in
  firstn 5
    (Array_sort_by (fun a b => (total b - total a)%float)
       (List.filter (fun r => (0 <? total r)%float)
          (List.map
             (fun c =>
                {| top_category := c;
                   total := sumForMonthTypeCategory transactions m Expenses c |})
             (CATEGORIES Expenses)))).

(** ** JSON export and import (lines 81-100, 686 and 707-714) *)

(** Run-time values as far as plain data goes. *)
Inductive jsval :=
| JUndefined
| JNull
| JBool (b : bool)
| JNum (n : float)
| JStr (s : string)
| JArr (elements : list jsval)
| JObj (props : list (string * jsval)).

(** A JSON document: what a JSON text denotes.  A number literal stands for
    the binary64 value it is read as. *)
Inductive json :=
| J_null
| J_bool (b : bool)
| J_number (n : float)
| J_string (s : string)
| J_array (elements : list json)
| J_object (members : list (string * json)).

(** The text of a file or of a storage slot, as far as [JSON.parse] tells
    texts apart: the empty text, a text it rejects, a text it accepts. *)
Inductive FileText :=
| EmptyText
| NotJSON
| JSONText (doc : json).

(** The number a printed number is read back as: [Number::toString] prints
    a finite value with digits that read back to the same value, and prints
    [-0] as [0]. *)
Definition printed_number (n : float) : float :=
  if is_zero n then 0%float else n.

(** [JSON.stringify(v, null, 2)], as the document its text denotes;
    [None] is the result [undefined].  Non-finite numbers are printed as
    [null], members whose value is [undefined] are left out, and
    [undefined] elements of an array are printed as [null]. *)
Fixpoint JSON_stringify (v : jsval) : option json :=
  match v with
  | JUndefined => None
  | JNull => Some J_null
  | JBool b => Some (J_bool b)
  | JNum n => Some (if Number_isFinite n then J_number (printed_number n) else J_null)
  | JStr s => Some (J_string s)
  | JArr l =>
      Some (J_array
              (List.map
                 (fun e => match JSON_stringify e with Some d => d | None => J_null end)
                 l))
  | JObj ps =>
      Some (J_object
              ((fix members (ps : list (string * jsval)) : list (string * json) :=
                  match ps with
                  | [] => []
                  | (k, e) :: r =>
                      match JSON_stringify e with
                      | Some d => (k, d) :: members r
                      | None => members r
                      end
                  end) ps))
  end.

(** [obj[k] = v] on the properties of a plain object, in creation order. *)
Fixpoint set_prop (k : string) (v : jsval) (ps : list (string * jsval))
  : list (string * jsval) :=
  match ps with
  | [] => [(k, v)]
  | (k', v') :: r =>
      if String.eqb k' k then (k', v) :: r else (k', v') :: set_prop k v r
  end.

(** [obj[k]]: [undefined] when there is no such property. *)
Fixpoint get_prop (ps : list (string * jsval)) (k : string) : jsval :=
  match ps with
  | [] => JUndefined
  | (k', v) :: r => if String.eqb k' k then v else get_prop r k
  end.

(** [JSON.parse] on an accepted text. *)
Fixpoint JSON_parse (d : json) : jsval :=
  match d with
  | J_null => JNull
  | J_bool b => JBool b
  | J_number n => JNum n
  | J_string s => JStr s
  | J_array l => JArr (List.map JSON_parse l)
  | J_object ms =>
      JObj
        ((fix props (ms : list (string * json)) (acc : list (string * jsval))
            : list (string * jsval) :=
            match ms with
            | [] => acc
            | (k, e) :: r => props r (set_prop k (JSON_parse e) acc)
            end) ms [])
  end.

(** [safeParseJSON(raw, fallback)]; [None] is [null]. *)
Definition safeParseJSON (raw : option FileText) (fallback : jsval) : jsval :=
  match raw with
  | None => fallback
  | Some EmptyText => fallback
  | Some NotJSON => fallback
  | Some (JSONText doc) => JSON_parse doc
  end.

(** [downloadJSON(filename, data)]: the content of the file offered for
    download. *)
Definition downloadJSON (data : jsval) : FileText :=
  match JSON_stringify data with
  | Some doc => JSONText doc
  | None => NotJSON
  end.

(** The import handler: the value handed to [setTransactions]. *)
Definition importFile (text : FileText) : jsval :=
  safeParseJSON (Some text) (JArr []).

(** A transaction as the object it is at run time. *)
Definition Transaction_to_js (t : Transaction) : jsval :=
  JObj
    [("id", JStr (id t));
     ("date", JStr (date t));
     ("type", JStr (TxType_string (type t)));
     ("category", JStr (category t));
     ("amount", JNum (amount t));
     ("details", match details t with Some d => JStr d | None => JUndefined end)].

Definition Transactions_to_js (l : list Transaction) : jsval :=
  JArr (List.map Transaction_to_js l).

(** Export followed by import of what was exported. *)
Definition exportThenImport (l : list Transaction) : jsval :=
  importFile (downloadJSON (Transactions_to_js l)).

(** Equality by value of plain data: numbers and strings as [===] compares
    them, arrays element by element, objects property by property (a
    missing property reads as [undefined]). *)
Inductive jsval_eqv : jsval -> jsval -> Prop :=
| eqv_undefined : jsval_eqv JUndefined JUndefined
| eqv_null : jsval_eqv JNull JNull
| eqv_bool b : jsval_eqv (JBool b) (JBool b)
| eqv_num x y : (x =? y)%float = true -> jsval_eqv (JNum x) (JNum y)
| eqv_str s : jsval_eqv (JStr s) (JStr s)
| eqv_arr l1 l2 : Forall2 jsval_eqv l1 l2 -> jsval_eqv (JArr l1) (JArr l2)
| eqv_obj p1 p2 :
    (forall k, jsval_eqv (get_prop p1 k) (get_prop p2 k)) ->
    jsval_eqv (JObj p1) (JObj p2).

(** * Vocabulary of the properties *)

(** ** Order of the numbers *)

(** NaN among the specification-level values. *)
Definition SFis_nan (x : spec_float) : bool :=
  match x with S754_nan => true | _ => false end.

(** The infinities among the specification-level values. *)
Definition SFis_infinity (x : spec_float) : bool :=
  match x with S754_infinity _ => true | _ => false end.

(** The place of a non-NaN binary64 value on the extended number line. *)
Definition rank (x : spec_float) : Z * Z * Z :=
  match x with
  | S754_nan => (0, 0, 0)
  | S754_zero _ => (0, 0, 0)
  | S754_infinity true => (-2, 0, 0)
  | S754_infinity false => (2, 0, 0)
  | S754_finite true m e => (-1, - e, - Zpos m)
  | S754_finite false m e => (1, e, Zpos m)
  end.

(** The lexicographic order of ranks. *)
Definition lt3 (a b : Z * Z * Z) : Prop :=
  let '(a1, a2, a3) := a in
  let '(b1, b2, b3) := b in
  a1 < b1 \/ (a1 = b1 /\ (a2 < b2 \/ (a2 = b2 /\ a3 < b3))).

(** Equality of ranks, component by component. *)
Definition eq3 (a b : Z * Z * Z) : Prop :=
  let '(a1, a2, a3) := a in
  let '(b1, b2, b3) := b in
  a1 = b1 /\ a2 = b2 /\ a3 = b3.

(** The rank of a number. *)
Definition frank (x : float) : Z * Z * Z := rank (Prim2SF x).

(** A result that carries the sign [s] and is neither a zero nor a NaN. *)
Definition signed (s : bool) (x : spec_float) : Prop :=
  match x with
  | S754_finite s' _ _ => s' = s
  | S754_infinity s' => s' = s
  | _ => False
  end.

(** ** Whole numbers among the numbers *)

(** The canonical mantissa and exponent of a whole number of at most 54
    bits. *)
Definition intExponent (n : positive) : Z := Zpos (digits2_pos n) - 53.
Definition intMantissa (n : positive) : Z := Z.shiftl (Zpos n) (- intExponent n).

(** The representation of the whole number [z]. *)
Definition SFint (z : Z) : spec_float := binary_normalize prec emax z 0 false.

(** The number that is the whole number [z] (rounded, beyond 2^53). *)
Definition of_int (z : Z) : float := SF2Prim (SFint z).

(** The whole part of a number, 0 for NaN and the infinities. *)
Definition to_int (x : float) : Z :=
  match Prim2SF x with
  | S754_finite s m e => cond_Zopp s (Z.shiftl (Zpos m) e)
  | _ => 0
  end.

(** A number that is a whole number. *)
Definition wholeNumber (x : float) : Prop := x = of_int (to_int x).

(** The exact sum of the whole parts. *)
Definition intTotal (xs : list float) : Z :=
  fold_right (fun x r => to_int x + r) 0 xs.

(** The exact sum of the absolute values of the whole parts. *)
Definition absTotal (xs : list float) : Z :=
  fold_right (fun x r => Z.abs (to_int x) + r) 0 xs.

(** ** Sums and their summands *)

(** The sum of numbers from the left, starting at 0. *)
Definition sumFromLeft (xs : list float) : float :=
  fold_left (fun acc x => (acc + x)%float) xs 0%float.

(** The amount of an entry with NaN (and a zero of either sign) read as
    0. *)
Definition nanAsZero (t : Transaction) : float :=
  if is_nan (amount t) || is_zero (amount t) then 0%float else amount t.

(** The numbers a sum by type adds up, in the order it adds them. *)
Definition summandsByType (l : list Transaction) (ty : TxType) : list float :=
  List.map amountOrZero (List.filter (fun t => TxType_eqb (type t) ty) l).

(** The numbers a month/type/category sum adds up, in the order it adds
    them. *)
Definition summandsForMonthTypeCategory (l : list Transaction) (m : string)
    (ty : TxType) (cat : string) : list float :=
  List.map amountOrZero
    (List.filter
       (fun t =>
          String.eqb (monthKeyFromDate (date t)) m
          && TxType_eqb (type t) ty
          && String.eqb (category t) cat)
       l).

(** ** Ranking of the expense categories *)

(** The row [topExpenses] builds for a category. *)
Definition expenseRow (l : list Transaction) (m c : string) : TopRow :=
  {| top_category := c; total := sumForMonthTypeCategory l m Expenses c |}.

(** The comparator handed to [sort]. *)
Definition byTotalDesc (a b : TopRow) : float := (total b - total a)%float.

(** The positive rows of a month, ranked: [topExpenses] before [slice]. *)
Definition rankedExpenses (l : list Transaction) (m : string) : list TopRow :=
  Array_sort_by byTotalDesc
    (List.filter (fun r => (0 <? total r)%float)
       (List.map (expenseRow l m) (CATEGORIES Expenses))).

(** The position of the first occurrence of [c] in [l] (its length when
    there is none). *)
Fixpoint indexOf (c : string) (l : list string) : nat :=
  match l with
  | [] => O
  | x :: r => if String.eqb x c then O else S (indexOf c r)
  end.

(** The place of a category in the declaration of [CATEGORIES.Expenses]. *)
Definition declIndex (c : string) : nat := indexOf c (CATEGORIES Expenses).

(** [a] ranks before [b]: a greater total, or the same total and an earlier
    declaration. *)
Definition ranksBefore (a b : TopRow) : Prop :=
  (total b <? total a)%float = true
  \/ ((total a =? total b)%float = true
      /\ (declIndex (top_category a) < declIndex (top_category b))%nat).

(** A row whose total is not NaN. *)
Definition hasNumber (r : TopRow) : Prop := is_nan (total r) = false.

(** [a]'s category is declared before [b]'s. *)
Definition declaredBefore (a b : TopRow) : Prop :=
  (declIndex (top_category a) < declIndex (top_category b))%nat.

(** ** Chart values and budget edits *)

(** The values [BarChart] takes the maximum of. *)
Definition barValues (series : list (list float)) : list float :=
  List.map (fun v => if Number_isFinite v then v else 0%float) (List.concat series).

(** One edit of the Plan tab: month, type, category and the value typed. *)
Definition BudgetEdit : Type := string * TxType * string * float.

(** A sequence of edits, applied in order. *)
Definition applyEdits (edits : list BudgetEdit) (b : BudgetStore) : BudgetStore :=
  fold_left (fun b '(m, t, c, v) => setBudget b m t c v) edits b.

(** Every stored allocation is a finite number. *)
Definition allFinite (b : BudgetStore) : Prop :=
  map_Forall (fun _ v => Number_isFinite v = true) b.

(** ** Inputs of the examples *)

(** An entry of type Income with the given amount (the other fields do not
    matter to the sums by type). *)
Definition incomeOf (a : float) : Transaction :=
  {| id := "a"; date := "2026-01-05"; type := Income; category := "Salary";
     amount := a; details := None |}.

(** An Expenses entry for Rent in January 2026. *)
Definition rentOf (a : float) : Transaction :=
  {| id := "r"; date := "2026-01-10"; type := Expenses; category := "Rent";
     amount := a; details := None |}.

(** An Income entry whose amount is [Infinity], as an imported file with
    the amount [1e999] gives. *)
Definition infiniteIncome : Transaction :=
  {| id := "a"; date := "2026-01-05"; type := Income; category := "Salary";
     amount := infinity; details := None |}.

(** A form filled in with the amount ["abc"]. *)
Definition form_abc : State :=
  {| transactions := [incomeOf 1%float];
     form_date := "2026-01-05"; form_type := Expenses; form_category := "Rent";
     form_amount := "abc"; form_details := "";
     budgets := ∅; selectedMonth := "2026-01" |}.

(** A form filled in except for the amount. *)
Definition form_empty_amount : State :=
  {| transactions := [incomeOf 1%float];
     form_date := "2026-01-05"; form_type := Expenses; form_category := "Rent";
     form_amount := ""; form_details := "";
     budgets := ∅; selectedMonth := "2026-01" |}.

(** The largest power of two among the numbers, 2^1023. *)
Definition two_1023 : float := Eval vm_compute in Z.ldexp 1%float 1023.

(** * Further operations of the component *)

(** ** Deleting and clearing (lines 417-424) *)

(** The state with another entry collection. *)
Definition withTransactions (l : list Transaction) (s : State) : State :=
  {| transactions := l;
     form_date := form_date s;
     form_type := form_type s;
     form_category := form_category s;
     form_amount := form_amount s;
     form_details := form_details s;
     budgets := budgets s;
     selectedMonth := selectedMonth s |}.

(** [deleteTransaction(id)]: [prev.filter((t) => t.id !== id)]. *)
Definition deleteTransaction (id0 : string) (s : State) : State :=
  withTransactions
    (List.filter (fun t => negb (String.eqb (id t) id0)) (transactions s)) s.

(** [clearAll()]; [confirmed] is the answer to [confirm(...)]. *)
Definition clearAll (confirmed : bool) (s : State) : State :=
  if negb confirmed then s else withTransactions [] s.

(** ** The form's category and the selected month (lines 386-388, 468-473) *)

(** [setType(t)] followed by the effect on [type]:
    [setCategory(CATEGORIES[type][0] ?? "")].  The effect runs when [type]
    has changed; setting the type it already has changes nothing. *)
Definition chooseType (t : TxType) (s : State) : State :=
  if TxType_eqb t (form_type s) then s
  else
    {| transactions := transactions s;
       form_date := form_date s;
       form_type := t;
       form_category :=
         match CATEGORIES t with
         | c :: _ => c
         | [] => ""
         end;
       form_amount := form_amount s;
       form_details := form_details s;
       budgets := budgets s;
       selectedMonth := selectedMonth s |}.

(** ** The fields of the form (lines 595-670) *)

Definition setDate (v : string) (s : State) : State :=
  {| transactions := transactions s;
     form_date := v;
     form_type := form_type s;
     form_category := form_category s;
     form_amount := form_amount s;
     form_details := form_details s;
     budgets := budgets s;
     selectedMonth := selectedMonth s |}.

Definition setCategory (v : string) (s : State) : State :=
  {| transactions := transactions s;
     form_date := form_date s;
     form_type := form_type s;
     form_category := v;
     form_amount := form_amount s;
     form_details := form_details s;
     budgets := budgets s;
     selectedMonth := selectedMonth s |}.

Definition setAmount (v : string) (s : State) : State :=
  {| transactions := transactions s;
     form_date := form_date s;
     form_type := form_type s;
     form_category := form_category s;
     form_amount := v;
     form_details := form_details s;
     budgets := budgets s;
     selectedMonth := selectedMonth s |}.

Definition setDetails (v : string) (s : State) : State :=
  {| transactions := transactions s;
     form_date := form_date s;
     form_type := form_type s;
     form_category := form_category s;
     form_amount := form_amount s;
     form_details := v;
     budgets := budgets s;
     selectedMonth := selectedMonth s |}.

(** The category select (lines 631-642): its options are
    [CATEGORIES[type]], and choosing one of them calls [setCategory] with
    it; a value that is no option cannot be chosen. *)
Definition selectCategory (c : string) (s : State) : State :=
  if existsb (String.eqb c) (CATEGORIES (form_type s)) then setCategory c s else s.

(** [setSelectedMonth(m)]. *)
Definition setSelectedMonth (m : string) (s : State) : State :=
  {| transactions := transactions s;
     form_date := form_date s;
     form_type := form_type s;
     form_category := form_category s;
     form_amount := form_amount s;
     form_details := form_details s;
     budgets := budgets s;
     selectedMonth := m |}.

(** The effect on [allMonthsInTx] (lines 468-473): with entries, a selected
    month that is empty or not 7 code units long is replaced by the last
    month of [allMonthsInTx].  The index [length - 1] is in range there. *)
Definition syncSelectedMonth (s : State) : State :=
  let months := allMonthsInTx (transactions s) in
  if (List.length months =? 0)%nat then s
  else if negb (ToBoolean_string (selectedMonth s))
          || negb (String.length (selectedMonth s) =? 7)%nat
  then setSelectedMonth (nth (List.length months - 1) months "") s
  else s.

(** ** The default date and the first selected month (lines 374-380, 443) *)

(** [String(n)] for an integer [n]: its decimal digits. *)
Definition String_of_integer (n : Z) : string :=
  NilZero.string_of_int (Z.to_int n).

(** [s.padStart(2, "0")]. *)
Definition padStart2 (s : string) : string :=
  match String.length s with
  | O => "00"
  | S O => "0" ++ s
  | _ => s
  end.

(** What the component reads off [new Date()]: [getFullYear()],
    [getMonth()] and [getDate()]. *)
Record Today := { fullYear : Z; monthIndex : Z; dayOfMonth : Z }.

Definition yyyy (today : Today) : string := String_of_integer (fullYear today).
Definition mm (today : Today) : string :=
  padStart2 (String_of_integer (monthIndex today + 1)).
Definition dd (today : Today) : string :=
  padStart2 (String_of_integer (dayOfMonth today)).

(** [`${yyyy}-${mm}-${dd}`]. *)
Definition defaultDate (today : Today) : string :=
  yyyy today ++ "-" ++ mm today ++ "-" ++ dd today.

(** The first value of [selectedMonth]: [`${yyyy}-${mm}`]. *)
Definition initialSelectedMonth (today : Today) : string :=
  yyyy today ++ "-" ++ mm today.

(** ** Budget edits on the state and the totals (lines 390-397, 449-452, 881) *)

(** [setBudget] as the state update it is. *)
Definition setBudgetState (monthKey : string) (t : TxType) (cat : string)
    (value : float) (s : State) : State :=
  {| transactions := transactions s;
     form_date := form_date s;
     form_type := form_type s;
     form_category := form_category s;
     form_amount := form_amount s;
     form_details := form_details s;
     budgets := setBudget (budgets s) monthKey t cat value;
     selectedMonth := selectedMonth s |}.

(** The budget input of the Plan tab (line 881):
    [setBudget(selectedMonth, t, cat, Number(e.target.value))]. *)
Definition editBudget (t : TxType) (cat : string) (text : string) (s : State)
    : State :=
  setBudgetState (selectedMonth s) t cat (Number text) s.

Record Totals := {
  totalIncome : float;
  totalExpenses : float;
  totalSavings : float;
  totalInvestments : float;
  totalNet : float
}.

(** [totals] (lines 390-397). *)
Definition totals (transactions : list Transaction) : Totals :=
  let income := sumByType transactions Income in
  let expenses := sumByType transactions Expenses in
  let savings := sumByType transactions Savings in
  let investments := sumByType transactions Investments in
  {| totalIncome := income;
     totalExpenses := expenses;
     totalSavings := savings;
     totalInvestments := investments;
     totalNet := (income - expenses - savings - investments)%float |}.

(** ** The bar chart: ticks and bar heights (lines 244-247, 333-335) *)

(** [Math.round(x)]: [x] itself when it is integral or not finite,
    otherwise the integer nearest to [x], the greater one on a tie; a
    result of zero keeps the sign of [x]. *)
Definition Math_round (x : float) : float :=
  match Prim2SF x with
  | S754_finite s m e =>
      if 0 <=? e then x
      else
        let n := Z.shiftr (2 * cond_Zopp s (Zpos m) + 2 ^ (- e)) (1 - e) in
        if n =? 0 then (if s then neg_zero else PrimFloat.zero) else of_int n
  | _ => x
  end.

(** [steps], the number of graduations. *)
Definition steps : float := 4%float.

(** [ticks]: [Array.from({ length: steps + 1 }, (_, i) =>
    Math.round((max * (steps - i)) / steps))]. *)
Definition BarChart_ticks (series : list (list float)) : list float :=
  let max := BarChart_max series in
  List.map (fun i => Math_round ((max * (steps - i)) / steps)%float)
    [0; 1; 2; 3; 4]%float.

(** The height, in percent, of the bar of series [s] at label [i] (lines
    334-335); [s[i]] is [undefined] beyond the end of [s]. *)
Definition barHeight (series : list (list float)) (s : list float) (i : nat)
    : float :=
  let max := BarChart_max series in
  let v :=
    match nth_error s i with
    | Some x => if Number_isFinite x then x else 0%float
    | None => 0%float
    end in
  (v / max * 100)%float.

(** ** Keeping the budgets in storage (lines 429-435) *)

(** The budget store as the object it is at run time. *)
Definition BudgetStore_to_js (b : BudgetStore) : jsval :=
  JObj (List.map (fun kv => (fst kv, JNum (snd kv))) (map_to_list b)).

(** [localStorage.setItem(BUDGET_STORAGE_KEY, JSON.stringify(budgets))]:
    the text stored. *)
Definition storeBudgets (b : BudgetStore) : FileText :=
  match JSON_stringify (BudgetStore_to_js b) with
  | Some doc => JSONText doc
  | None => NotJSON
  end.

(** [safeParseJSON(localStorage.getItem(BUDGET_STORAGE_KEY), {})]. *)
Definition loadBudgets (stored : option FileText) : jsval :=
  safeParseJSON stored (JObj []).

(** [budgets[key] ?? 0] on the loaded value: [None] is the TypeError of a
    property read on [null] or [undefined]; a value that is not an object
    has no property of that name. *)
Definition getBudget_loaded (budgets : jsval) (monthKey : string) (t : TxType)
    (cat : string) : option jsval :=
  let read :=
    match budgets with
    | JUndefined | JNull => None
    | JObj ps => Some (get_prop ps (budgetKey monthKey t cat))
    | _ => Some JUndefined
    end in
  match read with
  | Some JUndefined | Some JNull => Some (JNum 0%float)
  | other => other
  end.

(** ** The budget-versus-tracked figures of the Dashboard (lines 506-533) *)

Definition budgetSumForType (budgets : BudgetStore) (monthKey : string)
    (t : TxType) : float :=
  fold_left (fun acc cat => (acc + getBudget budgets monthKey t cat)%float)
    (CATEGORIES t) 0%float.

Definition trackedSumForType (transactions : list Transaction)
    (monthKey : string) (t : TxType) : float :=
  fold_left
    (fun acc cat => (acc + sumForMonthTypeCategory transactions monthKey t cat)%float)
    (CATEGORIES t) 0%float.

(** An object with one number per type. *)
Record ByType := {
  ofIncome : float;
  ofExpenses : float;
  ofSavings : float;
  ofInvestments : float
}.

Record BudgetVsTracked := { budget : ByType; tracked : ByType }.

Definition dashboardBudgetVsTracked (s : State) : BudgetVsTracked :=
  let m := selectedMonth s in
  {| budget :=
       {| ofIncome := budgetSumForType (budgets s) m Income;
          ofExpenses := budgetSumForType (budgets s) m Expenses;
          ofSavings := budgetSumForType (budgets s) m Savings;
          ofInvestments := budgetSumForType (budgets s) m Investments |};
     tracked :=
       {| ofIncome := trackedSumForType (transactions s) m Income;
          ofExpenses := trackedSumForType (transactions s) m Expenses;
          ofSavings := trackedSumForType (transactions s) m Savings;
          ofInvestments := trackedSumForType (transactions s) m Investments |} |}.

(** The number an object with one number per type holds for a type. *)
Definition ofType (t : TxType) (o : ByType) : float :=
  match t with
  | Income => ofIncome o
  | Expenses => ofExpenses o
  | Savings => ofSavings o
  | Investments => ofInvestments o
  end.

(** ** What the user and the effects can do *)

(** The handlers and effects above, one constructor each (lines 386-424,
    449-452, 468-473, 595-670, 775 and 881).  An effect is an action of
    its own, run when React runs it.  An import is not among them: it
    replaces the entries by whatever the file holds. *)
Inductive Action :=
| SetDate (v : string)
| ChooseType (t : TxType)
| SelectCategory (c : string)
| SetAmount (v : string)
| SetDetails (v : string)
| AddTransaction (fresh : string)
| DeleteTransaction (id0 : string)
| ClearAll (confirmed : bool)
| EditBudget (t : TxType) (cat : string) (text : string)
| SetSelectedMonth (m : string)
| SyncSelectedMonth.

Definition perform (a : Action) (s : State) : State :=
  match a with
  | SetDate v => setDate v s
  | ChooseType t => chooseType t s
  | SelectCategory c => selectCategory c s
  | SetAmount v => setAmount v s
  | SetDetails v => setDetails v s
  | AddTransaction fresh => addTransaction fresh s
  | DeleteTransaction id0 => deleteTransaction id0 s
  | ClearAll confirmed => clearAll confirmed s
  | EditBudget t cat text => editBudget t cat text s
  | SetSelectedMonth m => setSelectedMonth m s
  | SyncSelectedMonth => syncSelectedMonth s
  end.

Definition run (acts : list Action) (s : State) : State :=
  fold_left (fun s a => perform a s) acts s.

(** ** Vocabulary of the further properties *)

(** Strictly ascending by code units. *)
Definition ascending (l : list string) : Prop :=
  StronglySorted (fun a b => String.ltb a b = true) l.

(** The guard of [addTransaction] lets the form through. *)
Definition guardPasses (s : State) : Prop :=
  form_date s <> "" /\ form_category s <> ""
  /\ Number_isFinite (Number (form_amount s)) = true.

(** The identifiers of the entries, in their order. *)
Definition ids (s : State) : list string := List.map id (transactions s).

(** Every amount and every allocation is a finite number. *)
Definition finiteState (s : State) : Prop :=
  Forall (fun t => is_finite (amount t) = true) (transactions s)
  /\ allFinite (budgets s).

(** The form and every entry carry a category declared for their type. *)
Definition declaredState (s : State) : Prop :=
  In (form_category s) (CATEGORIES (form_type s))
  /\ Forall (fun t => In (category t) (CATEGORIES (type t))) (transactions s).

(** The entries of a month and type, and those of one of its categories,
    as the sums select them. *)
Definition ofMonthType (m : string) (ty : TxType) (t : Transaction) : bool :=
  String.eqb (monthKeyFromDate (date t)) m && TxType_eqb (type t) ty.

Definition ofMonthTypeCategory (m : string) (ty : TxType) (cat : string)
    (t : Transaction) : bool :=
  String.eqb (monthKeyFromDate (date t)) m
  && TxType_eqb (type t) ty
  && String.eqb (category t) cat.

(** A string without the separator of [budgetKey]. *)
Definition noBar (s : string) : Prop := ~ In "|"%char (list_ascii_of_string s).

(** * Facts about binary64 arithmetic

    The comparisons and the sign of a difference, derived from the
    specification of the primitive operations ([FloatAxioms]). *)

Module FloatOrder.

Lemma SFcompare_rank x y :
  SFis_nan x = false -> SFis_nan y = false ->
  match SFcompare x y with
  | Some Lt => lt3 (rank x) (rank y)
  | Some Eq => rank x = rank y
  | Some Gt => lt3 (rank y) (rank x)
  | None => False
  end.
Proof.
  destruct x as [sx|sx| |sx mx ex], y as [sy|sy| |sy my ey];
    try discriminate; intros _ _; cbn;
    try (destruct sx); try (destruct sy); cbn; try lia; try reflexivity.
  - destruct (Z.compare_spec ex ey); cbn; try lia.
    change (Pos.compare_cont Eq mx my) with (mx ?= my)%positive.
    destruct (Pos.compare_spec mx my); cbn; subst; try reflexivity; lia.
  - destruct (Z.compare_spec ex ey); cbn; try lia.
    change (Pos.compare_cont Eq mx my) with (mx ?= my)%positive.
    destruct (Pos.compare_spec mx my); cbn; subst; try reflexivity; lia.
Qed.

Lemma SFcompare_refl x : SFis_nan x = false -> SFcompare x x = Some Eq.
Proof.
  destruct x as [s|s| |s m e]; try discriminate; intros _; cbn;
    try (destruct s; reflexivity).
  rewrite Z.compare_refl.
  change (Pos.compare_cont Eq m m) with (m ?= m)%positive.
  rewrite Pos.compare_refl. now destruct s.
Qed.

Lemma is_nan_spec x : is_nan x = SFis_nan (Prim2SF x).
Proof.
  unfold is_nan. rewrite FloatAxioms.eqb_spec. unfold SFeqb.
  destruct (SFis_nan (Prim2SF x)) eqn:E.
  - destruct (Prim2SF x); try discriminate. reflexivity.
  - now rewrite SFcompare_refl.
Qed.

Lemma ltb_nan_l x y : is_nan x = true -> (x <? y)%float = false.
Proof.
  rewrite is_nan_spec, FloatAxioms.ltb_spec. now destruct (Prim2SF x).
Qed.

Lemma ltb_nan_r x y : is_nan y = true -> (x <? y)%float = false.
Proof.
  rewrite is_nan_spec, FloatAxioms.ltb_spec. unfold SFltb.
  destruct (Prim2SF y); try discriminate. now destruct (Prim2SF x).
Qed.

Lemma ltb_rank x y :
  is_nan x = false -> is_nan y = false ->
  (x <? y)%float = true <-> lt3 (frank x) (frank y).
Proof.
  rewrite !is_nan_spec, FloatAxioms.ltb_spec. unfold SFltb, frank. intros Hx Hy.
  pose proof (SFcompare_rank _ _ Hx Hy) as H.
  destruct (SFcompare (Prim2SF x) (Prim2SF y)) as [[]|]; try contradiction;
    destruct (rank (Prim2SF x)) as [[a1 a2] a3], (rank (Prim2SF y)) as [[b1 b2] b3];
    unfold lt3 in *; split; intros; try discriminate; try reflexivity;
    try (injection H as -> -> ->); lia.
Qed.

Lemma ltb_false_rank x y :
  is_nan x = false -> is_nan y = false ->
  (x <? y)%float = false <-> ~ lt3 (frank x) (frank y).
Proof.
  intros Hx Hy. rewrite <- (ltb_rank x y Hx Hy).
  destruct (x <? y)%float; split; congruence.
Qed.

Lemma eqb_rank x y :
  is_nan x = false -> is_nan y = false ->
  (x =? y)%float = true <-> eq3 (frank x) (frank y).
Proof.
  rewrite !is_nan_spec, FloatAxioms.eqb_spec. unfold SFeqb, frank. intros Hx Hy.
  pose proof (SFcompare_rank _ _ Hx Hy) as H.
  destruct (SFcompare (Prim2SF x) (Prim2SF y)) as [[]|]; try contradiction;
    destruct (rank (Prim2SF x)) as [[a1 a2] a3], (rank (Prim2SF y)) as [[b1 b2] b3];
    unfold lt3, eq3 in *; split; intros; try discriminate; try reflexivity;
    try (injection H as -> -> ->); lia.
Qed.

Lemma leb_rank x y :
  is_nan x = false -> is_nan y = false ->
  (x <=? y)%float = true <-> ~ lt3 (frank y) (frank x).
Proof.
  rewrite !is_nan_spec, FloatAxioms.leb_spec. unfold SFleb, frank. intros Hx Hy.
  pose proof (SFcompare_rank _ _ Hx Hy) as H.
  destruct (SFcompare (Prim2SF x) (Prim2SF y)) as [[]|]; try contradiction;
    destruct (rank (Prim2SF x)) as [[a1 a2] a3], (rank (Prim2SF y)) as [[b1 b2] b3];
    unfold lt3 in *; split; intros; try discriminate; try reflexivity;
    try (injection H as -> -> ->); lia.
Qed.

Lemma digits2_pos_bounds m :
  2 ^ (Zpos (digits2_pos m) - 1) <= Zpos m < 2 ^ Zpos (digits2_pos m).
Proof.
  induction m as [m IH|m IH|]; cbn [digits2_pos].
  - rewrite Pos2Z.inj_succ.
    replace (Z.succ (Zpos (digits2_pos m)) - 1) with (Z.succ (Zpos (digits2_pos m) - 1)) by lia.
    rewrite !Z.pow_succ_r by lia. lia.
  - rewrite Pos2Z.inj_succ.
    replace (Z.succ (Zpos (digits2_pos m)) - 1) with (Z.succ (Zpos (digits2_pos m) - 1)) by lia.
    rewrite !Z.pow_succ_r by lia. lia.
  - cbn. lia.
Qed.

Lemma shr_1_m mrs : 0 <= shr_m mrs -> shr_m (shr_1 mrs) = shr_m mrs / 2.
Proof.
  destruct mrs as [m r s]; cbn [shr_m shr_1]. intros Hm.
  rewrite <- Z.div2_div.
  destruct m as [|[p|p|]|p]; cbn [shr_m]; try reflexivity; lia.
Qed.

Lemma iter_shr_1 p : forall mrs,
  0 <= shr_m mrs -> shr_m (iter_pos shr_1 p mrs) = shr_m mrs / 2 ^ Zpos p.
Proof.
  induction p as [p IH|p IH|]; intros mrs Hm; cbn [iter_pos].
  - assert (H1 : 0 <= shr_m (shr_1 mrs)) by (rewrite shr_1_m by lia; apply Z.div_pos; lia).
    assert (H2 : 0 <= shr_m (iter_pos shr_1 p (shr_1 mrs)))
      by (rewrite IH by lia; apply Z.div_pos; lia).
    rewrite IH, IH, shr_1_m by lia.
    rewrite !Z.div_div by lia.
    f_equal. replace (Zpos p~1) with (1 + Zpos p + Zpos p) by lia.
    rewrite !Z.pow_add_r, Z.pow_1_r by lia. lia.
  - assert (H2 : 0 <= shr_m (iter_pos shr_1 p mrs))
      by (rewrite IH by lia; apply Z.div_pos; lia).
    rewrite IH, IH by lia.
    rewrite !Z.div_div by lia.
    f_equal. replace (Zpos p~0) with (Zpos p + Zpos p) by lia.
    rewrite !Z.pow_add_r by lia. lia.
  - rewrite shr_1_m by lia. reflexivity.
Qed.

Lemma shr_record_of_loc_m m l : shr_m (shr_record_of_loc m l) = m.
Proof. destruct l as [|[]]; reflexivity. Qed.

(** Shifting a positive mantissa to its canonical exponent leaves it
    positive, as long as the exponent is not below the least one. *)
Lemma shr_fexp_pos m e l :
  -1074 <= e ->
  0 < shr_m (fst (shr_fexp prec emax (Zpos m) e l))
  /\ -1074 <= snd (shr_fexp prec emax (Zpos m) e l).
Proof.
  intros He. unfold shr_fexp, shr. cbn [Zdigits2].
  pose proof (digits2_pos_bounds m) as [Hlo Hhi].
  remember (Zpos (digits2_pos m)) as d eqn:Ed.
  assert (Hd : 0 < d) by lia.
  destruct (fexp prec emax (d + e) - e) as [|p|p] eqn:En; cbn [fst snd];
    rewrite ?shr_record_of_loc_m; try lia.
  unfold fexp, SpecFloat.emin, prec, emax in En.
  assert (Hp : Zpos p = d - 53) by lia.
  rewrite iter_shr_1 by (rewrite shr_record_of_loc_m; lia).
  rewrite shr_record_of_loc_m. split; [|lia].
  apply Z.div_str_pos. split; [apply Z.pow_pos_nonneg; lia|].
  apply Z.le_trans with (2 ^ (d - 1)); [|exact Hlo].
  apply Z.pow_le_mono_r; lia.
Qed.

Lemma round_nearest_even_pos m l : 0 < m -> 0 < round_nearest_even m l.
Proof.
  intros Hm. destruct l as [|[]]; cbn; try lia.
  destruct (Z.even m); lia.
Qed.

Lemma binary_round_aux_signed s m e l :
  -1074 <= e -> signed s (binary_round_aux prec emax s (Zpos m) e l).
Proof.
  intros He. unfold binary_round_aux.
  pose proof (shr_fexp_pos m e l He) as [H1 H2].
  destruct (shr_fexp prec emax (Zpos m) e l) as [mrs' e']. cbn [fst snd] in H1, H2.
  pose proof (round_nearest_even_pos (shr_m mrs') (loc_of_shr_record mrs') H1) as H3.
  destruct (round_nearest_even (shr_m mrs') (loc_of_shr_record mrs')) as [|q|q]; try lia.
  pose proof (shr_fexp_pos q e' loc_Exact H2) as [H4 H5].
  destruct (shr_fexp prec emax (Zpos q) e' loc_Exact) as [mrs'' e'']. cbn [fst snd] in H4, H5.
  destruct (shr_m mrs'') as [|r|r]; try lia.
  destruct (e'' <=? emax - prec); reflexivity.
Qed.

Lemma Pos_iter_xO d : forall m, Zpos (Pos.iter xO m d) = Zpos m * 2 ^ Zpos d.
Proof.
  induction d as [|d IH] using Pos.peano_ind; intros m.
  - cbn. lia.
  - rewrite Pos.iter_succ, Pos2Z.inj_xO, IH, Pos2Z.inj_succ, Z.pow_succ_r by lia. lia.
Qed.

(** Aligning a mantissa to a smaller exponent multiplies it by a power of
    two. *)
Lemma shl_align_spec m e e' :
  e' <= e ->
  Zpos (fst (shl_align m e e')) = Zpos m * 2 ^ (e - e')
  /\ snd (shl_align m e e') = e'.
Proof.
  intros H. unfold shl_align.
  destruct (e' - e) as [|p|p] eqn:E; cbn [fst snd]; try lia.
  - replace (e - e') with 0 by lia. cbn. lia.
  - rewrite Pos_iter_xO. replace (e - e') with (Zpos p) by lia. lia.
Qed.

Lemma binary_round_signed s m e :
  -1074 <= e -> signed s (binary_round prec emax s m e).
Proof.
  intros He. unfold binary_round.
  destruct (shl_align m e (fexp prec emax (Zpos (digits2_pos m) + e))) as [mz ez] eqn:E.
  apply binary_round_aux_signed.
  unfold shl_align in E.
  destruct (fexp prec emax (Zpos (digits2_pos m) + e) - e) as [|p|p] eqn:E';
    injection E as <- <-; try lia.
  unfold fexp, SpecFloat.emin, prec, emax. lia.
Qed.

(** The sign of a rounded non-zero integer multiple of a power of two is
    the sign of the integer: rounding never reaches zero or NaN. *)
Lemma binary_normalize_sign D e :
  -1074 <= e ->
  match binary_normalize prec emax D e false with
  | S754_zero s => D = 0 /\ s = false
  | S754_finite s _ _ => D <> 0 /\ s = (D <? 0)
  | S754_infinity s => D <> 0 /\ s = (D <? 0)
  | S754_nan => False
  end.
Proof.
  intros He. destruct D as [|p|p]; cbn [binary_normalize].
  - split; reflexivity.
  - pose proof (binary_round_signed false p e He) as H.
    destruct (binary_round prec emax false p e); cbn in H; try contradiction;
      subst; (split; [lia|reflexivity]).
  - pose proof (binary_round_signed true p e He) as H.
    destruct (binary_round prec emax true p e); cbn in H; try contradiction;
      subst; (split; [lia|reflexivity]).
Qed.

Lemma valid_finite s m e :
  valid_binary (S754_finite s m e) = true ->
  -1074 <= e /\ Zpos (digits2_pos m) <= 53 /\ (-1074 < e -> Zpos (digits2_pos m) = 53).
Proof.
  cbn [SpecFloat.valid_binary]. unfold bounded, canonical_mantissa.
  rewrite andb_true_iff, Z.eqb_eq, Z.leb_le.
  unfold fexp, SpecFloat.emin, prec, emax. lia.
Qed.

(** Two canonical mantissas aligned to the smaller exponent compare as the
    pairs (exponent, mantissa) do. *)
Lemma aligned_lt mx ex my ey :
  valid_binary (S754_finite false mx ex) = true ->
  valid_binary (S754_finite false my ey) = true ->
  Zpos (fst (shl_align mx ex (Z.min ey ex))) < Zpos (fst (shl_align my ey (Z.min ey ex)))
  <-> (ex < ey \/ (ex = ey /\ Zpos mx < Zpos my)).
Proof.
  intros Vx Vy.
  apply valid_finite in Vx as (Hex & Hdx & Hnx), Vy as (Hey & Hdy & Hny).
  destruct (shl_align_spec mx ex (Z.min ey ex)) as [-> _]; [lia|].
  destruct (shl_align_spec my ey (Z.min ey ex)) as [-> _]; [lia|].
  pose proof (digits2_pos_bounds mx) as [Hlx Hhx].
  pose proof (digits2_pos_bounds my) as [Hly Hhy].
  assert (P53 : forall d, d <= 53 -> 2 ^ d <= 9007199254740992)
    by (intros d Hd; change 9007199254740992 with (2 ^ 53); apply Z.pow_le_mono_r; lia).
  assert (P2 : forall k, 0 < k -> 2 <= 2 ^ k)
    by (intros k Hk; change 2 with (2 ^ 1) at 1; apply Z.pow_le_mono_r; lia).
  destruct (Z.lt_trichotomy ex ey) as [H|[H|H]].
  - replace (Z.min ey ex) with ex by lia. rewrite Z.sub_diag, Z.pow_0_r.
    specialize (Hny ltac:(lia)). rewrite Hny in Hly. change (2 ^ (53 - 1)) with 4503599627370496 in Hly.
    specialize (P53 _ Hdx). specialize (P2 (ey - ex) ltac:(lia)). nia.
  - subst ey. replace (Z.min ex ex) with ex by lia. rewrite Z.sub_diag, Z.pow_0_r. lia.
  - replace (Z.min ey ex) with ey by lia. rewrite Z.sub_diag, Z.pow_0_r.
    specialize (Hnx ltac:(lia)). rewrite Hnx in Hlx. change (2 ^ (53 - 1)) with 4503599627370496 in Hlx.
    specialize (P53 _ Hdy). specialize (P2 (ex - ey) ltac:(lia)). nia.
Qed.

Lemma SFltb_rank x y :
  SFis_nan x = false -> SFis_nan y = false ->
  SFltb x y = true <-> lt3 (rank x) (rank y).
Proof.
  intros Hx Hy. unfold SFltb.
  pose proof (SFcompare_rank _ _ Hx Hy) as H.
  destruct (SFcompare x y) as [[]|]; try contradiction;
    destruct (rank x) as [[a1 a2] a3], (rank y) as [[b1 b2] b3];
    unfold lt3 in *; split; intros; try discriminate; try reflexivity;
    try (injection H as -> -> ->); lia.
Qed.

(** The sign of a difference tells how the operands compare. *)
Lemma SFsub_sign x y :
  valid_binary x = true -> valid_binary y = true ->
  SFltb (S754_zero false) (SFsub prec emax y x) = SFltb x y
  /\ SFltb (SFsub prec emax y x) (S754_zero false) = SFltb y x.
Proof.
  intros Vx Vy.
  destruct x as [sx|sx| |sx mx ex], y as [sy|sy| |sy my ey];
    try (destruct sx); try (destruct sy); try (split; reflexivity).
  all: cbn [SFsub].
  all: change (IntDef.Z.min ey ex) with (Z.min ey ex).
  all: assert (Vx' : valid_binary (S754_finite false mx ex) = true) by exact Vx.
  all: assert (Vy' : valid_binary (S754_finite false my ey) = true) by exact Vy.
  all: pose proof (aligned_lt mx ex my ey Vx' Vy') as L1.
  all: pose proof (aligned_lt my ey mx ex Vy' Vx') as L2.
  all: rewrite (Z.min_comm ex ey) in L2.
  all: apply valid_finite in Vx' as (Hex & _), Vy' as (Hey & _).
  all: match goal with
       | |- context [binary_normalize prec emax ?D ?e false] =>
           pose proof (binary_normalize_sign D e ltac:(lia)) as HD;
           destruct (binary_normalize prec emax D e false) as [s|s| |s m e'] eqn:EN
       end; try contradiction.
  all: cbn [cond_Zopp] in HD.
  all: split; apply eq_iff_eq_true.
  all: rewrite ?SFltb_rank by reflexivity.
  all: destruct HD as [HD ->].
  all: try match goal with |- context [?a <? 0] => destruct (Z.ltb_spec a 0) end.
  all: cbn [rank]; unfold lt3.
  all: lia.
Qed.

Lemma Prim2SF_zero : Prim2SF 0 = S754_zero false.
Proof. reflexivity. Qed.

(** [0 < y - x] exactly when [x < y], for all numbers. *)
Lemma sub_pos x y : (0 <? y - x)%float = (x <? y)%float.
Proof.
  rewrite !FloatAxioms.ltb_spec, sub_spec, Prim2SF_zero.
  apply SFsub_sign; apply Prim2SF_valid.
Qed.

(** [y - x < 0] exactly when [y < x], for all numbers. *)
Lemma sub_neg x y : (y - x <? 0)%float = (y <? x)%float.
Proof.
  rewrite !FloatAxioms.ltb_spec, sub_spec, Prim2SF_zero.
  apply SFsub_sign; apply Prim2SF_valid.
Qed.

Lemma is_infinity_spec x : is_infinity x = SFis_infinity (Prim2SF x).
Proof.
  unfold is_infinity. rewrite FloatAxioms.eqb_spec, abs_spec.
  change (Prim2SF infinity) with (S754_infinity false).
  destruct (Prim2SF x) as [s|s| |s m e]; reflexivity.
Qed.

Lemma is_finite_spec x :
  is_finite x = negb (SFis_nan (Prim2SF x) || SFis_infinity (Prim2SF x)).
Proof. unfold is_finite. now rewrite is_nan_spec, is_infinity_spec. Qed.

Lemma is_finite_not_nan x : is_finite x = true -> is_nan x = false.
Proof. unfold is_finite. now destruct (is_nan x). Qed.

(** Adding a finite number never produces a NaN out of a number. *)
Lemma add_not_nan a b :
  is_nan a = false -> is_finite b = true -> is_nan (a + b)%float = false.
Proof.
  rewrite is_finite_spec, !is_nan_spec, add_spec.
  pose proof (Prim2SF_valid a) as Va. pose proof (Prim2SF_valid b) as Vb.
  destruct (Prim2SF a) as [sa|sa| |sa ma ea], (Prim2SF b) as [sb|sb| |sb mb eb];
    try discriminate; intros _ _; try reflexivity.
  - destruct sa, sb; reflexivity.
  - cbn [SF64add SFadd].
    apply valid_finite in Va as (Ha & _), Vb as (Hb & _).
    match goal with
    | |- context [binary_normalize prec emax ?D ?e false] =>
        pose proof (binary_normalize_sign D e ltac:(unfold IntDef.Z.min; destruct (ea ?= eb); lia)) as HD;
        destruct (binary_normalize prec emax D e false)
    end; try reflexivity; contradiction.
Qed.

Lemma is_zero_rank x : is_zero x = true -> is_nan x = false /\ frank x = (0, 0, 0).
Proof.
  unfold is_zero. intros H.
  assert (N : is_nan x = false).
  { rewrite is_nan_spec. rewrite FloatAxioms.eqb_spec in H. now destruct (Prim2SF x). }
  split; [exact N|].
  apply eqb_rank in H; [|exact N|reflexivity].
  change (eq3 (frank x) (0, 0, 0)) in H. destruct (frank x) as [[a b] c]. cbn in H.
  destruct H as (-> & -> & ->). reflexivity.
Qed.

(** *** Whole numbers

    Additions of whole numbers are exact while the results have at most 54
    bits. *)

Lemma digits_unique p d :
  2 ^ (d - 1) <= Zpos p < 2 ^ d -> Zpos (digits2_pos p) = d.
Proof.
  intros [Hlo Hhi]. pose proof (digits2_pos_bounds p) as [Blo Bhi].
  set (d' := Zpos (digits2_pos p)) in *.
  assert (0 < d).
  { destruct (Z.lt_trichotomy d 0) as [N|[N|N]]; [|subst d|exact N].
    - rewrite Z.pow_neg_r in Hhi by exact N. lia.
    - rewrite Z.pow_0_r in Hhi. lia. }
  destruct (Z.lt_trichotomy d' d) as [L|[E|G]]; [|exact E|].
  - assert (2 ^ d' <= 2 ^ (d - 1)) by (apply Z.pow_le_mono_r; lia). lia.
  - assert (2 ^ d <= 2 ^ (d' - 1)) by (apply Z.pow_le_mono_r; lia). lia.
Qed.

Lemma shr_1_double z :
  0 < z ->
  shr_1 {| shr_m := 2 * z; shr_r := false; shr_s := false |}
  = {| shr_m := z; shr_r := false; shr_s := false |}.
Proof. destruct z; try lia. reflexivity. Qed.

(** Shifting out zero bits is exact. *)
Lemma iter_shr_1_exact p : forall z,
  0 < z ->
  iter_pos shr_1 p {| shr_m := z * 2 ^ Zpos p; shr_r := false; shr_s := false |}
  = {| shr_m := z; shr_r := false; shr_s := false |}.
Proof.
  induction p as [p IH|p IH|]; intros z Hz; cbn [iter_pos].
  - replace (z * 2 ^ Zpos p~1) with (2 * ((z * 2 ^ Zpos p) * 2 ^ Zpos p)).
    + assert (0 < 2 ^ Zpos p) by (apply Z.pow_pos_nonneg; lia).
      rewrite shr_1_double by nia. rewrite IH by nia. apply IH, Hz.
    + replace (Zpos p~1) with (1 + Zpos p + Zpos p) by lia.
      rewrite !Z.pow_add_r, Z.pow_1_r by lia. lia.
  - replace (z * 2 ^ Zpos p~0) with ((z * 2 ^ Zpos p) * 2 ^ Zpos p).
    + assert (0 < 2 ^ Zpos p) by (apply Z.pow_pos_nonneg; lia).
      rewrite IH by nia. apply IH, Hz.
    + replace (Zpos p~0) with (Zpos p + Zpos p) by lia.
      rewrite !Z.pow_add_r by lia. lia.
  - rewrite Z.pow_1_r, Z.mul_comm. apply shr_1_double, Hz.
Qed.

Lemma intMantissa_bounds n :
  Zpos n <= 2 ^ 53 ->
  2 ^ 52 <= intMantissa n < 2 ^ 53
  /\ -52 <= intExponent n <= 1
  /\ (forall j, 0 <= j -> 0 <= intExponent n + j ->
        Zpos n * 2 ^ j = intMantissa n * 2 ^ (intExponent n + j)).
Proof.
  intros Hn. unfold intMantissa, intExponent.
  pose proof (digits2_pos_bounds n) as [Hlo Hhi].
  set (d := Zpos (digits2_pos n)) in *.
  assert (Hd1 : 1 <= d) by (unfold d; lia).
  assert (Hd : d <= 54).
  { destruct (Z.le_gt_cases d 54) as [L|G]; [exact L|].
    assert (2 ^ 54 <= 2 ^ (d - 1)) by (apply Z.pow_le_mono_r; lia).
    change (2 ^ 54) with 18014398509481984 in *. change (2 ^ 53) with 9007199254740992 in *. lia. }
  destruct (Z.eq_dec d 54) as [E54|N54].
  - rewrite E54 in *. change (2 ^ (54 - 1)) with (2 ^ 53) in Hlo.
    assert (En : Zpos n = 2 ^ 53) by lia. rewrite En.
    change (- (54 - 53)) with (-1). change (Z.shiftl (2 ^ 53) (-1)) with (2 ^ 52).
    split; [split; [apply Z.le_refl|reflexivity]|]. split; [split; discriminate|].
    intros j Hj0 Hj. replace (54 - 53 + j) with (1 + j) by lia.
    rewrite Z.pow_add_r by lia. change (2 ^ 53) with (2 ^ 52 * 2 ^ 1).
    rewrite Z.mul_assoc. reflexivity.
  - assert (Hs : 0 <= - (d - 53)) by lia.
    rewrite Z.shiftl_mul_pow2 by exact Hs.
    assert (P1 : 2 ^ (d - 1) * 2 ^ (- (d - 53)) = 2 ^ 52)
      by (rewrite <- Z.pow_add_r by lia; f_equal; lia).
    assert (P2 : 2 ^ d * 2 ^ (- (d - 53)) = 2 ^ 53)
      by (rewrite <- Z.pow_add_r by lia; f_equal; lia).
    assert (P0 : 0 < 2 ^ (- (d - 53))) by (apply Z.pow_pos_nonneg; lia).
    split; [split; nia|]. split; [lia|].
    intros j Hj0 Hj. rewrite <- Z.mul_assoc, <- Z.pow_add_r by lia. f_equal. f_equal. lia.
Qed.

Lemma binary_round_aux_exact s q e M E :
  shr_fexp prec emax (Zpos q) e loc_Exact
  = ({| shr_m := Zpos M; shr_r := false; shr_s := false |}, E) ->
  2 ^ 52 <= Zpos M < 2 ^ 53 -> -1074 <= E <= 971 ->
  binary_round_aux prec emax s (Zpos q) e loc_Exact = S754_finite s M E.
Proof.
  intros H HM HE. unfold binary_round_aux. rewrite H.
  cbn [shr_m loc_of_shr_record round_nearest_even].
  unfold shr_fexp. cbn [Zdigits2].
  rewrite (digits_unique M 53) by (change (53 - 1) with 52; exact HM).
  replace (fexp prec emax (53 + E) - E) with 0
    by (unfold fexp, SpecFloat.emin, prec, emax; lia).
  cbn [shr shr_record_of_loc shr_m].
  replace (E <=? emax - prec) with true; [reflexivity|].
  symmetry. apply Z.leb_le. unfold emax, prec. lia.
Qed.

(** Rounding a whole number of at most 54 bits, however it is aligned,
    gives its canonical representation. *)
Lemma binary_round_int s (n q : positive) (k : Z) :
  Zpos n <= 2 ^ 53 -> 0 <= k -> Zpos q = Zpos n * 2 ^ k ->
  binary_round prec emax s q (- k)
  = S754_finite s (Z.to_pos (intMantissa n)) (intExponent n).
Proof.
  intros Hn Hk Hq.
  destruct (intMantissa_bounds n Hn) as (HM & HE & Hval).
  pose proof (digits2_pos_bounds n) as [Hlo Hhi].
  assert (Hdq : Zpos (digits2_pos q) = Zpos (digits2_pos n) + k).
  { apply digits_unique. rewrite Hq.
    assert (0 < 2 ^ k) by (apply Z.pow_pos_nonneg; lia).
    replace (Zpos (digits2_pos n) + k - 1) with (Zpos (digits2_pos n) - 1 + k) by lia.
    rewrite !Z.pow_add_r by lia. nia. }
  assert (HMpos : Zpos (Z.to_pos (intMantissa n)) = intMantissa n)
    by (apply Z2Pos.id; lia).
  unfold binary_round. rewrite Hdq.
  replace (fexp prec emax (Zpos (digits2_pos n) + k + - k)) with (intExponent n)
    by (unfold intExponent, fexp, SpecFloat.emin, prec, emax; unfold intExponent in HE; lia).
  unfold shl_align.
  destruct (intExponent n - - k) as [|p|p] eqn:Ek.
  - (* already aligned *)
    apply binary_round_aux_exact; [|rewrite HMpos; exact HM|lia].
    unfold shr_fexp. cbn [Zdigits2]. rewrite Hdq.
    replace (fexp prec emax (Zpos (digits2_pos n) + k + - k) - - k) with 0
      by (unfold fexp, SpecFloat.emin, prec, emax; unfold intExponent in *; lia).
    cbn [shr shr_record_of_loc]. f_equal; [|lia]. f_equal.
    rewrite HMpos, Hq, (Hval k Hk) by lia.
    replace (intExponent n + k) with 0 by lia. lia.
  - (* the mantissa has zero bits to shift out *)
    apply binary_round_aux_exact; [|rewrite HMpos; exact HM|lia].
    unfold shr_fexp. cbn [Zdigits2]. rewrite Hdq.
    replace (fexp prec emax (Zpos (digits2_pos n) + k + - k) - - k) with (Zpos p)
      by (unfold fexp, SpecFloat.emin, prec, emax; unfold intExponent in *; lia).
    cbn [shr shr_record_of_loc]. f_equal; [|lia].
    rewrite HMpos, Hq, (Hval k Hk) by lia.
    replace (intExponent n + k) with (Zpos p) by lia.
    apply iter_shr_1_exact. lia.
  - (* the mantissa is shifted left *)
    assert (Hz : Zpos (Pos.iter xO q p) = intMantissa n).
    { rewrite Pos_iter_xO, Hq.
      assert (Hj : 0 <= intExponent n + (k + Zpos p)) by lia.
      rewrite <- Z.mul_assoc, <- Z.pow_add_r by lia.
      rewrite (Hval (k + Zpos p) ltac:(lia) Hj).
      replace (intExponent n + (k + Zpos p)) with 0 by lia. lia. }
    apply binary_round_aux_exact; [|rewrite HMpos; exact HM|lia].
    unfold shr_fexp. cbn [Zdigits2].
    rewrite (digits_unique (Pos.iter xO q p) 53) by (rewrite Hz; exact HM).
    replace (fexp prec emax (53 + intExponent n) - intExponent n) with 0
      by (unfold fexp, SpecFloat.emin, prec, emax; lia).
    cbn [shr shr_record_of_loc]. f_equal. f_equal. lia.
Qed.

Lemma SFint_pos p :
  Zpos p <= 2 ^ 53 ->
  SFint (Zpos p) = S754_finite false (Z.to_pos (intMantissa p)) (intExponent p).
Proof.
  intros H. unfold SFint. cbn [binary_normalize].
  apply (binary_round_int false p p 0 H); [lia|]. rewrite Z.pow_0_r. lia.
Qed.

Lemma SFint_neg p :
  Zpos p <= 2 ^ 53 ->
  SFint (Zneg p) = S754_finite true (Z.to_pos (intMantissa p)) (intExponent p).
Proof.
  intros H. unfold SFint. cbn [binary_normalize].
  apply (binary_round_int true p p 0 H); [lia|]. rewrite Z.pow_0_r. lia.
Qed.

(** A whole number rounds to the same value however it is aligned. *)
Lemma binary_normalize_shift n k :
  Z.abs n <= 2 ^ 53 -> 0 <= k ->
  binary_normalize prec emax (n * 2 ^ k) (- k) false = SFint n.
Proof.
  intros Hn Hk. assert (P : 0 < 2 ^ k) by (apply Z.pow_pos_nonneg; lia).
  destruct n as [|p|p].
  - reflexivity.
  - rewrite SFint_pos by exact Hn.
    destruct (Zpos p * 2 ^ k) as [|q|q] eqn:Eq; try lia.
    cbn [binary_normalize]. apply binary_round_int; [exact Hn|exact Hk|now symmetry].
  - rewrite SFint_neg by exact Hn.
    destruct (Zneg p * 2 ^ k) as [|q|q] eqn:Eq; try lia.
    cbn [binary_normalize]. apply binary_round_int; [exact Hn|exact Hk|lia].
Qed.

Lemma SFint_valid z : Z.abs z <= 2 ^ 53 -> valid_binary (SFint z) = true.
Proof.
  intros H. destruct z as [|p|p]; [reflexivity| |].
  - rewrite SFint_pos by exact H.
    destruct (intMantissa_bounds p H) as (HM & HE & _).
    cbn [SpecFloat.valid_binary]. unfold bounded, canonical_mantissa.
    rewrite (digits_unique _ 53) by (rewrite Z2Pos.id by lia; exact HM).
    apply andb_true_iff. rewrite Z.eqb_eq, Z.leb_le.
    unfold fexp, SpecFloat.emin, prec, emax. lia.
  - rewrite SFint_neg by exact H.
    destruct (intMantissa_bounds p H) as (HM & HE & _).
    cbn [SpecFloat.valid_binary]. unfold bounded, canonical_mantissa.
    rewrite (digits_unique _ 53) by (rewrite Z2Pos.id by lia; exact HM).
    apply andb_true_iff. rewrite Z.eqb_eq, Z.leb_le.
    unfold fexp, SpecFloat.emin, prec, emax. lia.
Qed.

(** The aligned mantissa of a whole number is the number itself, scaled. *)
Lemma aligned_int p ez :
  Zpos p <= 2 ^ 53 -> ez <= intExponent p ->
  (ez <= 0 ->
   Zpos (fst (shl_align (Z.to_pos (intMantissa p)) (intExponent p) ez))
   = Zpos p * 2 ^ (- ez))
  /\ (0 < ez ->
      Zpos (fst (shl_align (Z.to_pos (intMantissa p)) (intExponent p) ez))
      = 4503599627370496).
Proof.
  intros H Hez. destruct (intMantissa_bounds p H) as (HM & HE & Hval).
  destruct (shl_align_spec (Z.to_pos (intMantissa p)) (intExponent p) ez Hez) as [-> _].
  rewrite Z2Pos.id by lia. split; intros Hz.
  - rewrite (Hval (- ez)) by lia. reflexivity.
  - replace (intExponent p - ez) with 0 by lia. rewrite Z.pow_0_r.
    specialize (Hval 0 ltac:(lia) ltac:(lia)).
    replace (intExponent p + 0) with 1 in Hval by lia.
    change (2 ^ 52) with 4503599627370496 in HM.
    change (2 ^ 53) with 9007199254740992 in HM, H.
    rewrite Z.pow_0_r, Z.pow_1_r in Hval. lia.
Qed.

(** Adding whole numbers is exact as long as the sum has at most 54
    bits. *)
Lemma SFadd_int a b :
  Z.abs a <= 2 ^ 53 -> Z.abs b <= 2 ^ 53 -> Z.abs (a + b) <= 2 ^ 53 ->
  SFadd prec emax (SFint a) (SFint b) = SFint (a + b).
Proof.
  intros Ha Hb Hab.
  destruct a as [|pa|pa];
    [rewrite Z.add_0_l; destruct b; [reflexivity| |];
     [rewrite SFint_pos by exact Hb|rewrite SFint_neg by exact Hb]; reflexivity| |].
  all: destruct b as [|pb|pb];
    [rewrite Z.add_0_r; first [rewrite SFint_pos by exact Ha|rewrite SFint_neg by exact Ha];
     reflexivity| |].
  all: first [rewrite (SFint_pos pa) by exact Ha|rewrite (SFint_neg pa) by exact Ha].
  all: first [rewrite (SFint_pos pb) by exact Hb|rewrite (SFint_neg pb) by exact Hb].
  all: cbn [SFadd cond_Zopp].
  all: change (IntDef.Z.min (intExponent pa) (intExponent pb))
         with (Z.min (intExponent pa) (intExponent pb)).
  all: set (ez := Z.min (intExponent pa) (intExponent pb)).
  all: destruct (aligned_int pa ez Ha ltac:(unfold ez; lia)) as [A1 A2].
  all: destruct (aligned_int pb ez Hb ltac:(unfold ez; lia)) as [B1 B2].
  all: destruct (Z.le_gt_cases ez 0) as [Hz|Hz].
  all: try (rewrite (A1 Hz), (B1 Hz)).
  all: try (rewrite (A2 Hz), (B2 Hz)).
  all: try match goal with
       | |- binary_normalize _ _ ?D ?e false = SFint ?n =>
           replace D with (n * 2 ^ (- e)) by lia;
           replace e with (- - e) at 2 by lia;
           apply binary_normalize_shift; [exact Hab|lia]
       end.
  all: destruct (intMantissa_bounds pa Ha) as (_ & HEa & _).
  all: destruct (intMantissa_bounds pb Hb) as (_ & HEb & _).
  all: pose proof (digits2_pos_bounds pa) as [La _].
  all: pose proof (digits2_pos_bounds pb) as [Lb _].
  all: unfold intExponent in *.
  all: assert (Da : Zpos (digits2_pos pa) = 54) by lia.
  all: assert (Db : Zpos (digits2_pos pb) = 54) by lia.
  all: rewrite Da in La; rewrite Db in Lb.
  all: change (2 ^ (54 - 1)) with 9007199254740992 in *.
  all: change (2 ^ 53) with 9007199254740992 in *.
  all: try lia.
  all: match goal with |- _ = SFint ?n => replace n with 0 by lia end.
  all: reflexivity.
Qed.

Lemma Prim2SF_of_int z : Z.abs z <= 2 ^ 53 -> Prim2SF (of_int z) = SFint z.
Proof. intros H. apply Prim2SF_SF2Prim, SFint_valid, H. Qed.

Lemma add_of_int a b :
  Z.abs a <= 2 ^ 53 -> Z.abs b <= 2 ^ 53 -> Z.abs (a + b) <= 2 ^ 53 ->
  (of_int a + of_int b)%float = of_int (a + b).
Proof.
  intros Ha Hb Hab. apply Prim2SF_inj.
  rewrite add_spec, !Prim2SF_of_int by assumption.
  apply SFadd_int; assumption.
Qed.

End FloatOrder.

(** * Properties of the component *)

Import FloatOrder.

(** Turns the comparisons of numbers known not to be NaN into comparisons of
    their ranks, and decides these. *)
Ltac rank_hyps :=
  repeat match goal with
    | H : (?x <? ?y)%float = true |- _ => apply ltb_rank in H; [|assumption|assumption]
    | H : (?x <? ?y)%float = false |- _ => apply ltb_false_rank in H; [|assumption|assumption]
    | H : (?x <=? ?y)%float = true |- _ => apply leb_rank in H; [|assumption|assumption]
    | H : (?x =? ?y)%float = true |- _ => apply eqb_rank in H; [|assumption|assumption]
    end.

Ltac rank_lia :=
  rank_hyps;
  change (frank 0%float) with (0, 0, 0) in *;
  change (frank 1%float) with (1, -52, 4503599627370496) in *;
  repeat match goal with
    | |- context [frank ?x] =>
        let r := fresh "r" in let E := fresh "E" in
        remember (frank x) as r eqn:E; clear E; destruct r as [[? ?] ?]
    | H : context [frank ?x] |- _ =>
        let r := fresh "r" in let E := fresh "E" in
        remember (frank x) as r eqn:E; clear E; destruct r as [[? ?] ?]
    end;
  unfold lt3, eq3 in *; lia.

(** ** Sums by type *)

Lemma sumAmounts_map (sel : list Transaction) :
  sumAmounts sel = sumFromLeft (List.map amountOrZero sel).
Proof.
  unfold sumAmounts, sumFromLeft. generalize 0%float.
  induction sel as [|t r IH]; intros acc; cbn; [reflexivity|apply IH].
Qed.

Lemma amountOrZero_nanAsZero t : amountOrZero t = nanAsZero t.
Proof.
  unfold amountOrZero, nanAsZero, or_else, ToBoolean_number, Number, ToNumber_number.
  rewrite (orb_comm (is_zero (amount t))). now destruct (is_nan (amount t) || is_zero (amount t)).
Qed.

Lemma TxType_eqb_eq a b : TxType_eqb a b = true <-> a = b.
Proof. destruct a, b; cbn; split; intros H; try reflexivity; discriminate. Qed.

Lemma amountOrZero_finite t :
  is_infinity (amount t) = false -> is_finite (amountOrZero t) = true.
Proof.
  intros H. rewrite amountOrZero_nanAsZero. unfold nanAsZero.
  destruct (is_nan (amount t)) eqn:N; [reflexivity|]. cbn [orb].
  destruct (is_zero (amount t)); [reflexivity|].
  unfold is_finite. now rewrite N, H.
Qed.

Lemma sumAmounts_not_nan sel :
  Forall (fun t => is_infinity (amount t) = false) sel -> is_nan (sumAmounts sel) = false.
Proof.
  unfold sumAmounts. intros F.
  assert (G : forall acc, is_nan acc = false ->
            is_nan (fold_left (fun acc t => (acc + amountOrZero t)%float) sel acc) = false).
  { induction F as [|t r Ft Fr IH]; intros acc Hacc; [exact Hacc|].
    cbn. apply IH, add_not_nan; [exact Hacc|apply amountOrZero_finite, Ft]. }
  apply G. reflexivity.
Qed.

(** C1, as stated, fails: an amount of [Infinity] is not coerced to 0, the
    sum of a single such Income entry is [Infinity], and with a second
    entry of [-Infinity] the sum is NaN. *)
Lemma sumByType_keeps_infinite_amounts :
  Number_isFinite (amount (incomeOf infinity)) = false
  /\ sumByType [incomeOf infinity] Income = infinity
  /\ is_nan (sumByType [incomeOf infinity; incomeOf neg_infinity] Income) = true.
Proof. repeat split; reflexivity. Qed.

(** C1, amended: for every list of entries and every kind, [sumByType] is
    the floating-point sum, from the left, of the amounts of the entries
    of that kind, a NaN amount counting as 0 and an infinite amount as it
    is; the sum is not NaN when no entry of the kind has an infinite
    amount, and it is 0 for the empty list. *)
Theorem sumByType_sums_amounts (l : list Transaction) (ty : TxType) :
  sumByType l ty
  = sumFromLeft (List.map nanAsZero (List.filter (fun t => TxType_eqb (type t) ty) l))
  /\ ((forall t, In t l -> type t = ty -> is_infinity (amount t) = false) ->
      is_nan (sumByType l ty) = false)
  /\ sumByType [] ty = 0%float.
Proof.
  split; [|split; [|reflexivity]].
  - unfold sumByType. rewrite sumAmounts_map. f_equal.
    apply map_ext. intros t. apply amountOrZero_nanAsZero.
  - intros H. apply sumAmounts_not_nan, Forall_forall. intros t Ht.
    apply filter_In in Ht as [Ht E]. apply H; [exact Ht|]. now apply TxType_eqb_eq.
Qed.

(** ** Entry creation *)

Lemma TxType_string_nonempty t : ToBoolean_string (TxType_string t) = true.
Proof. destruct t; reflexivity. Qed.

Lemma ToBoolean_string_false s : ToBoolean_string s = false <-> s = "".
Proof. destruct s; split; intros H; try reflexivity; discriminate. Qed.

(** C5: an entry-creation attempt with an empty date, an empty kind, an
    empty category or an amount string that does not convert to a finite
    number leaves the whole state, and so the entry collection, as it
    was. *)
Theorem addTransaction_refused (fresh : string) (s : State) :
  form_date s = "" \/ TxType_string (form_type s) = "" \/ form_category s = ""
  \/ Number_isFinite (Number (form_amount s)) = false ->
  addTransaction fresh s = s
  /\ transactions (addTransaction fresh s) = transactions s.
Proof.
  intros H. assert (E : addTransaction fresh s = s); [|now rewrite E].
  unfold addTransaction.
  destruct H as [H|[H|[H|H]]]; rewrite H; cbn [ToBoolean_string negb orb];
    rewrite ?orb_true_r; reflexivity.
Qed.

Lemma addTransaction_refused_witness :
  Number_isFinite (Number (form_amount form_abc)) = false
  /\ addTransaction "id-1" form_abc = form_abc
  /\ transactions (addTransaction "id-1" form_abc) = transactions form_abc.
Proof.
  split; [reflexivity|].
  apply (addTransaction_refused "id-1" form_abc).
  right; right; right. reflexivity.
Defined.

(** C10: with a non-empty date and category, an empty amount string is
    accepted: it converts to 0, and an entry with amount 0 is added to the
    collection (at its head). *)
Theorem addTransaction_empty_amount (fresh : string) (s : State) :
  form_amount s = "" -> form_date s <> "" -> form_category s <> "" ->
  exists tx,
    transactions (addTransaction fresh s) = tx :: transactions s
    /\ amount tx = 0%float
    /\ id tx = fresh /\ date tx = form_date s /\ type tx = form_type s
    /\ category tx = form_category s.
Proof.
  intros Ha Hd Hc. unfold addTransaction. rewrite Ha.
  destruct (ToBoolean_string (form_date s)) eqn:Ed;
    [|apply ToBoolean_string_false in Ed; contradiction].
  destruct (ToBoolean_string (form_category s)) eqn:Ec;
    [|apply ToBoolean_string_false in Ec; contradiction].
  rewrite TxType_string_nonempty.
  change (Number_isFinite (Number "")) with true. cbn [negb orb].
  eexists. cbn [transactions]. split; [reflexivity|].
  cbn [amount id date type category]. repeat split; reflexivity.
Qed.

Lemma addTransaction_empty_amount_witness :
  form_amount form_empty_amount = ""
  /\ form_date form_empty_amount <> ""
  /\ form_category form_empty_amount <> ""
  /\ exists tx,
      transactions (addTransaction "id-1" form_empty_amount)
      = tx :: transactions form_empty_amount
      /\ amount tx = 0%float
      /\ id tx = "id-1" /\ date tx = form_date form_empty_amount
      /\ type tx = form_type form_empty_amount
      /\ category tx = form_category form_empty_amount.
Proof.
  assert (Ha : form_amount form_empty_amount = "") by reflexivity.
  assert (Hd : form_date form_empty_amount <> "") by discriminate.
  assert (Hc : form_category form_empty_amount <> "") by discriminate.
  split; [exact Ha|]. split; [exact Hd|]. split; [exact Hc|].
  apply (addTransaction_empty_amount "id-1" form_empty_amount Ha Hd Hc).
Defined.

(** ** The Plan tab: variance *)

(** C2: for every selected month and every kind, the variance shown in the
    Plan tab is the budget total minus the tracked total, and its sign
    tells the two apart: it is positive exactly when the tracked total is
    below the budget total, negative exactly when it is above. *)
Theorem plan_variance (s : State) (k : TxType) :
  let b := monthBudgetTotal (budgets s) (selectedMonth s) k in
  let t := monthTrackedTotal (transactions s) (selectedMonth s) k in
  In {| plan_type := k; budgetTotal := b; trackedTotal := t;
        variance := (b - t)%float |} (planHeaders s)
  /\ (0 <? b - t)%float = (t <? b)%float
  /\ (b - t <? 0)%float = (b <? t)%float.
Proof.
  intros b t. split; [|split].
  - unfold planHeaders. apply in_map_iff. exists k. split; [reflexivity|].
    destruct k; cbn; tauto.
  - apply sub_pos.
  - apply sub_neg.
Qed.

(** ** Month rows *)

Lemma Set_add_In k set x : In x (Set_add k set) <-> x = k \/ In x set.
Proof.
  induction set as [|y r IH]; cbn.
  - intuition.
  - destruct (String.eqb_spec y k) as [->|N]; cbn; [intuition|].
    rewrite IH. intuition.
Qed.

Lemma months_set_In (l : list Transaction) : forall set x,
  In x (fold_left (fun set t => Set_add (monthKeyFromDate (date t)) set) l set)
  <-> In x set \/ Exists (fun t => monthKeyFromDate (date t) = x) l.
Proof.
  induction l as [|t l IH]; intros set x; cbn.
  - rewrite Exists_nil. intuition.
  - rewrite IH, Set_add_In, Exists_cons. intuition.
Qed.

Lemma sort_insert_In k l x : In x (sort_insert k l) <-> x = k \/ In x l.
Proof.
  induction l as [|y r IH]; cbn.
  - intuition.
  - destruct (String.ltb k y); cbn; [intuition|].
    rewrite IH. intuition.
Qed.

Lemma Array_sort_strings_In (l : list string) x :
  In x (Array_sort_strings l) <-> In x l.
Proof.
  unfold Array_sort_strings.
  assert (G : forall acc, In x (fold_left (fun sorted k => sort_insert k sorted) l acc)
                          <-> In x acc \/ In x l).
  { induction l as [|k l IH]; intros acc; cbn; [intuition|].
    rewrite IH, sort_insert_In. intuition. }
  rewrite G. cbn. intuition.
Qed.

(** The months of [allMonthsInTx] are the month keys of the entries. *)
Lemma allMonthsInTx_In (l : list Transaction) (m : string) :
  In m (allMonthsInTx l) <-> Exists (fun t => monthKeyFromDate (date t) = m) l.
Proof.
  unfold allMonthsInTx. rewrite Array_sort_strings_In, months_set_In. cbn. intuition.
Qed.

Lemma find_month_row (l : list Transaction) (m : string) (months : list string) :
  List.find (fun x => String.eqb (month x) m) (List.map (monthRow l) months)
  = if in_dec string_dec m months then Some (monthRow l m) else None.
Proof.
  induction months as [|k r IH]; [reflexivity|].
  cbn [List.map List.find]. cbn [monthRow month].
  destruct (String.eqb_spec k m) as [->|N].
  - destruct (in_dec string_dec m (m :: r)) as [_|N]; [reflexivity|].
    exfalso. apply N. now left.
  - rewrite IH.
    destruct (in_dec string_dec m r) as [I|I], (in_dec string_dec m (k :: r)) as [J|J];
      try reflexivity.
    + exfalso. apply J. now right.
    + destruct J as [J|J]; [congruence|contradiction].
Qed.

(** C6: [selectedMonthStats] is defined for every entry list and every
    month key.  When some entry falls in the month it is that month's row
    of the monthly series; otherwise it is the row of that month key with
    income, expenses, savings, investments and net all 0. *)
Theorem selectedMonthStats_total (l : list Transaction) (monthKey : string) :
  (Exists (fun t => monthKeyFromDate (date t) = monthKey) l ->
     selectedMonthStats l monthKey = monthRow l monthKey
     /\ In (selectedMonthStats l monthKey) (monthTotals l)
     /\ month (selectedMonthStats l monthKey) = monthKey)
  /\ (~ Exists (fun t => monthKeyFromDate (date t) = monthKey) l ->
     selectedMonthStats l monthKey
     = {| month := monthKey; income := 0; expenses := 0; savings := 0;
          investments := 0; net := 0 |}%float).
Proof.
  unfold selectedMonthStats, monthTotals. rewrite find_month_row.
  destruct (in_dec string_dec monthKey (allMonthsInTx l)) as [I|I].
  - split.
    + intros _. split; [reflexivity|]. split; [|reflexivity].
      apply in_map. exact I.
    + intros N. exfalso. apply N. apply allMonthsInTx_In. exact I.
  - split.
    + intros E. exfalso. apply I. apply allMonthsInTx_In. exact E.
    + intros _. reflexivity.
Qed.

(** ** Chart scales *)

(** What [Math.max] returns when no argument is NaN: a number that is not
    below the running value nor below any argument, and that is one of
    them. *)
Lemma Math_max_from_spec (l : list float) : forall h,
  is_nan h = false -> Forall (fun v => is_nan v = false) l ->
  is_nan (Math_max_from h l) = false
  /\ (h <=? Math_max_from h l)%float = true
  /\ Forall (fun v => (v <=? Math_max_from h l)%float = true) l
  /\ (Math_max_from h l = h \/ In (Math_max_from h l) l).
Proof.
  induction l as [|n rest IH]; intros h Hh Hl.
  - cbn. repeat split; auto. apply leb_rank; auto. rank_lia.
  - inversion Hl as [|? ? Hn Hrest]; subst. cbn [Math_max_from]. rewrite Hn.
    set (h1 := if is_pos_zero n && is_neg_zero h then n else h).
    set (h2 := if (h1 <? n)%float then n else h1).
    assert (N1 : is_nan h1 = false) by (unfold h1; destruct (_ && _); assumption).
    assert (N2 : is_nan h2 = false) by (unfold h2; destruct (_ <? _)%float; assumption).
    assert (A : ~ lt3 (frank h2) (frank h) /\ ~ lt3 (frank h2) (frank n)
                /\ (h2 = h \/ h2 = n)).
    { unfold h2, h1.
      destruct (is_pos_zero n && is_neg_zero h) eqn:Z.
      - apply andb_true_iff in Z as [Z1 Z2].
        unfold is_pos_zero in Z1. unfold is_neg_zero in Z2.
        apply andb_true_iff in Z1 as [Z1 _], Z2 as [Z2 _].
        apply is_zero_rank in Z1 as [_ Z1], Z2 as [_ Z2].
        destruct (n <? n)%float; rewrite Z1, Z2; unfold lt3; repeat split; auto; lia.
      - destruct (h <? n)%float eqn:L; repeat split; auto; rank_lia. }
    destruct A as (A1 & A2 & A3).
    destruct (IH h2 N2 Hrest) as (I1 & I2 & I3 & I4).
    split; [exact I1|]. split; [|split].
    + apply leb_rank; auto. rank_lia.
    + constructor; [apply leb_rank; auto; rank_lia|exact I3].
    + destruct I4 as [I4|I4]; [|right; now right].
      rewrite I4. destruct A3 as [->| ->]; [now left|right; now left].
Qed.

(** Arguments that do not exceed the running value 1 leave it at 1. *)
Lemma Math_max_from_one (l : list float) :
  Forall (fun v => is_nan v = false /\ (1 <? v)%float = false) l ->
  Math_max_from 1 l = 1%float.
Proof.
  induction l as [|n rest IH]; intros H; [reflexivity|].
  inversion H as [|? ? [Hn Hle] Hrest]; subst. cbn [Math_max_from].
  rewrite Hn. change (is_neg_zero 1) with false. rewrite andb_false_r, Hle.
  apply IH, Hrest.
Qed.

Lemma Math_max_one_first (l : list float) : Math_max (1%float :: l) = Math_max_from 1 l.
Proof. reflexivity. Qed.

Lemma barValues_finite series :
  Forall (fun v => is_finite v = true) (barValues series).
Proof.
  unfold barValues. apply Forall_forall. intros v Hv.
  apply in_map_iff in Hv as (w & <- & _). unfold Number_isFinite.
  destruct (is_finite w) eqn:E; [exact E|reflexivity].
Qed.

(** C4, as stated, fails: for the single value -5 the greatest absolute
    value is 5, and the scale of [BarChart] is 1. *)
Lemma BarChart_max_ignores_negative_values :
  BarChart_max [[(-5)%float]] = 1%float /\ Math_abs (-5)%float = 5%float.
Proof. split; reflexivity. Qed.

Lemma is_nan_abs v : is_nan (abs v) = is_nan v.
Proof. rewrite !is_nan_spec, abs_spec. now destruct (Prim2SF v). Qed.

Lemma is_zero_abs v : is_zero v = true -> is_zero (abs v) = true.
Proof.
  unfold is_zero. rewrite !FloatAxioms.eqb_spec, abs_spec.
  now destruct (Prim2SF v) as [[]|[]| |[] m e].
Qed.

Lemma zero_not_above_one w :
  is_zero w = true -> is_nan w = false /\ (1 <? w)%float = false.
Proof.
  intros Z. apply is_zero_rank in Z as [N Z]. split; [exact N|].
  apply ltb_false_rank; [reflexivity|exact N|]. rewrite Z. rank_lia.
Qed.

Lemma Math_max_from_nan (l : list float) : forall h,
  Exists (fun v => is_nan v = true) l -> is_nan (Math_max_from h l) = true.
Proof.
  induction l as [|n rest IH]; intros h E; [inversion E|].
  cbn [Math_max_from]. destruct (is_nan n) eqn:Hn; [reflexivity|].
  apply IH. inversion E as [? ? H|? ? H]; subst; [congruence|exact H].
Qed.

(** C4, amended: the scale of [BarChart] is the maximum of 1 and the series
    values, a non-finite value counting as 0 and no absolute value being
    taken: it is a finite number, at least 1 and so positive, not below any
    of these values, and equal to 1 or to one of them; it is exactly 1 when
    all values are zero or there are none.  The scale of [LineChart] is the
    maximum of 1 and the absolute values: the same holds of it when no
    value is NaN, and it is NaN when one is. *)
Theorem chart_scales (series : list (list float)) (values : list float) :
  (Number_isFinite (BarChart_max series) = true
   /\ (1 <=? BarChart_max series)%float = true
   /\ (0 <? BarChart_max series)%float = true
   /\ (forall v, In v (barValues series) -> (v <=? BarChart_max series)%float = true)
   /\ (BarChart_max series = 1%float \/ In (BarChart_max series) (barValues series))
   /\ (Forall (fun v => is_zero v = true) (List.concat series) ->
       BarChart_max series = 1%float))
  /\ (Forall (fun v => is_nan v = false) values ->
      (1 <=? LineChart_max values)%float = true
      /\ (0 <? LineChart_max values)%float = true
      /\ (forall v, In v values -> (Math_abs v <=? LineChart_max values)%float = true)
      /\ (LineChart_max values = 1%float
          \/ In (LineChart_max values) (List.map Math_abs values)))
  /\ (Forall (fun v => is_zero v = true) values -> LineChart_max values = 1%float)
  /\ (Exists (fun v => is_nan v = true) values -> is_nan (LineChart_max values) = true).
Proof.
  split; [|split; [|split]].
  - assert (E : BarChart_max series = Math_max_from 1 (barValues series)) by reflexivity.
    rewrite E. clear E.
    pose proof (barValues_finite series) as F.
    assert (NN : Forall (fun v => is_nan v = false) (barValues series)).
    { eapply Forall_impl; [|exact F]. intros v. apply is_finite_not_nan. }
    destruct (Math_max_from_spec (barValues series) 1%float eq_refl NN) as (R1 & R2 & R3 & R4).
    split; [|split; [exact R2|split; [|split; [|split; [exact R4|]]]]].
    + destruct R4 as [->|R4]; [reflexivity|].
      rewrite Forall_forall in F. apply F, R4.
    + apply ltb_rank; [reflexivity|exact R1|].
      apply leb_rank in R2; [|reflexivity|exact R1]. rank_lia.
    + rewrite Forall_forall in R3. exact R3.
    + intros Z. apply Math_max_from_one. unfold barValues.
      apply Forall_forall. intros w Hw.
      apply in_map_iff in Hw as (v & <- & Hv).
      rewrite Forall_forall in Z. specialize (Z v Hv).
      apply zero_not_above_one. destruct (Number_isFinite v); [exact Z|reflexivity].
  - intros NN. unfold LineChart_max. rewrite Math_max_one_first.
    assert (NA : Forall (fun v => is_nan v = false) (List.map (fun v => Math_abs v) values)).
    { apply Forall_forall. intros w Hw. apply in_map_iff in Hw as (v & <- & Hv).
      unfold Math_abs. rewrite is_nan_abs.
      rewrite Forall_forall in NN. apply NN, Hv. }
    destruct (Math_max_from_spec _ 1%float eq_refl NA) as (R1 & R2 & R3 & R4).
    split; [exact R2|split; [|split; [|exact R4]]].
    + apply ltb_rank; [reflexivity|exact R1|].
      apply leb_rank in R2; [|reflexivity|exact R1]. rank_lia.
    + intros v Hv. rewrite Forall_forall in R3. apply R3.
      apply in_map_iff. exists v. split; [reflexivity|exact Hv].
  - intros Z. unfold LineChart_max. rewrite Math_max_one_first.
    apply Math_max_from_one. apply Forall_forall. intros w Hw.
    apply in_map_iff in Hw as (v & <- & Hv).
    rewrite Forall_forall in Z. apply zero_not_above_one, is_zero_abs, Z, Hv.
  - intros E. unfold LineChart_max. rewrite Math_max_one_first.
    apply Math_max_from_nan. apply Exists_exists in E as (v & Hv & Hn).
    apply Exists_exists. exists (Math_abs v). split.
    + apply in_map_iff. exists v. split; [reflexivity|exact Hv].
    + unfold Math_abs. rewrite is_nan_abs. exact Hn.
Qed.

(** ** The top expenses *)

Lemma topExpenses_unfold l m :
  topExpenses l m
  = firstn 5 (Array_sort_by byTotalDesc
                (List.filter (fun r => (0 <? total r)%float)
                   (List.map (expenseRow l m) (CATEGORIES Expenses)))).
Proof. reflexivity. Qed.

Lemma insert_byTotalDesc x y r :
  sort_insert_by byTotalDesc x (y :: r)
  = if (total x <? total y)%float then y :: sort_insert_by byTotalDesc x r
    else x :: y :: r.
Proof. cbn [sort_insert_by]. unfold byTotalDesc at 1. rewrite sub_pos. reflexivity. Qed.

Lemma sort_insert_by_perm {A} (cmp : A -> A -> float) x l :
  Permutation (sort_insert_by cmp x l) (x :: l).
Proof.
  induction l as [|y r IH]; cbn [sort_insert_by]; [reflexivity|].
  destruct (0 <? cmp x y)%float; [|reflexivity].
  rewrite IH. apply perm_swap.
Qed.

Lemma Array_sort_by_perm {A} (cmp : A -> A -> float) l :
  Permutation (Array_sort_by cmp l) l.
Proof.
  induction l as [|x r IH]; cbn; [reflexivity|].
  rewrite sort_insert_by_perm. now constructor.
Qed.

Lemma ranksBefore_trans a b c :
  hasNumber a -> hasNumber b -> hasNumber c ->
  ranksBefore a b -> ranksBefore b c -> ranksBefore a c.
Proof.
  unfold hasNumber, ranksBefore. intros Na Nb Nc [H1|[H1 I1]] [H2|[H2 I2]].
  - left. apply ltb_rank; auto. rank_lia.
  - left. apply ltb_rank; auto. rank_lia.
  - left. apply ltb_rank; auto. rank_lia.
  - right. split; [|lia]. apply eqb_rank; auto. rank_lia.
Qed.

Lemma insert_sorted x l :
  hasNumber x -> Forall hasNumber l -> Forall (declaredBefore x) l ->
  StronglySorted ranksBefore l ->
  StronglySorted ranksBefore (sort_insert_by byTotalDesc x l).
Proof.
  intros Nx. induction l as [|y r IH]; intros Nl Dl Sl.
  - cbn. repeat constructor.
  - rewrite insert_byTotalDesc.
    inversion Nl as [|? ? Ny Nr]; subst.
    inversion Dl as [|? ? Dy Dr]; subst.
    inversion Sl as [|? ? Sr Fy]; subst.
    destruct (total x <? total y)%float eqn:L.
    + constructor; [apply IH; assumption|].
      eapply Permutation_Forall; [symmetry; apply sort_insert_by_perm|].
      constructor; [|exact Fy]. left. exact L.
    + assert (B : ranksBefore x y).
      { unfold ranksBefore, hasNumber, declaredBefore in *.
        destruct (total y <? total x)%float eqn:G; [now left|].
        right. split; [|exact Dy]. apply eqb_rank; auto. rank_lia. }
      constructor; [exact Sl|]. constructor; [exact B|].
      rewrite Forall_forall in Fy, Nr |- *. intros z Hz.
      apply ranksBefore_trans with y; auto.
Qed.

Lemma Array_sort_by_sorted l :
  Forall hasNumber l -> StronglySorted declaredBefore l ->
  StronglySorted ranksBefore (Array_sort_by byTotalDesc l).
Proof.
  induction l as [|x r IH]; intros Nl Dl; [constructor|].
  inversion Nl as [|? ? Nx Nr]; subst. inversion Dl as [|? ? Dr Dx]; subst.
  cbn [Array_sort_by fold_right]. apply insert_sorted.
  - exact Nx.
  - eapply Permutation_Forall; [symmetry; apply Array_sort_by_perm|exact Nr].
  - eapply Permutation_Forall; [symmetry; apply Array_sort_by_perm|exact Dx].
  - apply IH; assumption.
Qed.

Lemma StronglySorted_filter {A} (R : A -> A -> Prop) (f : A -> bool) l :
  StronglySorted R l -> StronglySorted R (List.filter f l).
Proof.
  induction 1 as [|x r S IH F]; cbn; [constructor|].
  destruct (f x); [|exact IH]. constructor; [exact IH|].
  rewrite Forall_forall in F |- *. intros y Hy. apply F.
  apply filter_In in Hy. tauto.
Qed.

Lemma StronglySorted_app_inv {A} (R : A -> A -> Prop) l1 l2 :
  StronglySorted R (l1 ++ l2) ->
  StronglySorted R l1 /\ forall a b, In a l1 -> In b l2 -> R a b.
Proof.
  induction l1 as [|x r IH]; cbn; intros S.
  - split; [constructor|]. intros a b [].
  - inversion S as [|? ? S' F]; subst. destruct (IH S') as [S1 C].
    split.
    + constructor; [exact S1|]. rewrite Forall_forall in F |- *.
      intros y Hy. apply F, in_or_app. now left.
    + intros a b [<-|Ha] Hb.
      * rewrite Forall_forall in F. apply F, in_or_app. now right.
      * now apply C.
Qed.

Lemma StronglySorted_nth {A} (R : A -> A -> Prop) l :
  StronglySorted R l ->
  forall i j a b, (i < j)%nat ->
    nth_error l i = Some a -> nth_error l j = Some b -> R a b.
Proof.
  induction 1 as [|x r S IH F]; intros i j a b Hij Ha Hb.
  - destruct i; discriminate.
  - destruct j as [|j]; [lia|]. cbn in Hb. destruct i as [|i]; cbn in Ha.
    + injection Ha as <-. rewrite Forall_forall in F. apply F.
      eapply nth_error_In, Hb.
    + apply (IH i j); [lia|assumption|assumption].
Qed.

Lemma positive_hasNumber r : (0 <? total r)%float = true -> hasNumber r.
Proof.
  unfold hasNumber. intros H. destruct (is_nan (total r)) eqn:N; [|reflexivity].
  rewrite ltb_nan_r in H by exact N. discriminate.
Qed.

(** The rows of one month of one entry list. *)
Section RankedExpenses.

Variable l : list Transaction.
Variable m : string.

Lemma expenseRows_declared :
  StronglySorted declaredBefore (List.map (expenseRow l m) (CATEGORIES Expenses)).
Proof.
  cbn [CATEGORIES List.map]. unfold declaredBefore.
  repeat (constructor; [|repeat (constructor; [cbn; lia|]); constructor]).
  constructor.
Qed.

Lemma rankedExpenses_In r :
  In r (rankedExpenses l m)
  <-> (In (top_category r) (CATEGORIES Expenses)
       /\ r = expenseRow l m (top_category r)
       /\ (0 <? total r)%float = true).
Proof.
  unfold rankedExpenses. split.
  - intros H. eapply Permutation_in in H; [|apply Array_sort_by_perm].
    apply filter_In in H as [H P]. apply in_map_iff in H as (c & <- & Hc).
    cbn [top_category]. auto.
  - intros (Hc & E & P). eapply Permutation_in; [symmetry; apply Array_sort_by_perm|].
    apply filter_In. split; [|exact P]. rewrite E. apply in_map, Hc.
Qed.

Lemma rankedExpenses_sorted : StronglySorted ranksBefore (rankedExpenses l m).
Proof.
  apply Array_sort_by_sorted.
  - apply Forall_forall. intros r Hr. apply filter_In in Hr as [_ P].
    apply positive_hasNumber, P.
  - apply StronglySorted_filter, expenseRows_declared.
Qed.

End RankedExpenses.

(** C3, as stated, fails: a category whose tracked total is negative, here
    Rent with -50, has a non-zero total and is left out of the ranking. *)
Lemma topExpenses_omits_negative_total :
  sumForMonthTypeCategory [rentOf (-50)%float] "2026-01" Expenses "Rent" = (-50)%float
  /\ is_zero (-50)%float = false
  /\ In "Rent" (CATEGORIES Expenses)
  /\ ~ In "Rent" (List.map top_category (topExpenses [rentOf (-50)%float] "2026-01")).
Proof.
  split; [reflexivity|]. split; [reflexivity|]. split; [cbn; tauto|].
  intros H. vm_compute in H. exact H.
Qed.

(** C3, amended: [topExpenses] holds at most 5 rows; each is an Expenses
    category of the fixed list with its tracked total for the month, and
    that total is greater than 0; the rows come by descending total, rows
    with the same total in declaration order; and an Expenses category with
    a total greater than 0 is missing only when 5 rows rank before it. *)
Theorem topExpenses_ranking (l : list Transaction) (m : string) :
  (length (topExpenses l m) <= 5)%nat
  /\ (forall r, In r (topExpenses l m) ->
        In (top_category r) (CATEGORIES Expenses)
        /\ total r = sumForMonthTypeCategory l m Expenses (top_category r)
        /\ (0 <? total r)%float = true)
  /\ (forall i j a b, (i < j)%nat ->
        nth_error (topExpenses l m) i = Some a ->
        nth_error (topExpenses l m) j = Some b ->
        ranksBefore a b)
  /\ (forall c, In c (CATEGORIES Expenses) ->
        (0 <? sumForMonthTypeCategory l m Expenses c)%float = true ->
        In (expenseRow l m c) (topExpenses l m)
        \/ (length (topExpenses l m) = 5%nat
            /\ forall r, In r (topExpenses l m) -> ranksBefore r (expenseRow l m c))).
Proof.
  rewrite topExpenses_unfold. fold (rankedExpenses l m).
  pose proof (rankedExpenses_sorted l m) as S.
  rewrite <- (firstn_skipn 5 (rankedExpenses l m)) in S.
  apply StronglySorted_app_inv in S as [S1 S2].
  split; [apply firstn_le_length|]. split; [|split].
  - intros r Hr.
    assert (Hr' : In r (rankedExpenses l m))
      by (rewrite <- (firstn_skipn 5 (rankedExpenses l m)); apply in_or_app; now left).
    apply rankedExpenses_In in Hr' as (Hc & E & P).
    split; [exact Hc|]. split; [|exact P]. rewrite E at 1. reflexivity.
  - apply StronglySorted_nth, S1.
  - intros c Hc P.
    assert (I : In (expenseRow l m c) (rankedExpenses l m))
      by (apply rankedExpenses_In; cbn [top_category expenseRow total]; auto).
    rewrite <- (firstn_skipn 5 (rankedExpenses l m)) in I.
    apply in_app_or in I as [I|I]; [now left|right].
    split; [|intros r Hr; now apply S2].
    apply firstn_length_le.
    destruct (le_lt_dec 5 (length (rankedExpenses l m))) as [G|G]; [exact G|].
    rewrite skipn_all2 in I by lia. destruct I.
Qed.

(** ** Export and import *)

Lemma eqb_refl_number x : is_nan x = false -> (x =? x)%float = true.
Proof. unfold is_nan. now destruct (x =? x)%float. Qed.

(** A finite number is read back, after printing, as a number equal to it. *)
Lemma printed_number_eqb n :
  is_finite n = true -> (printed_number n =? n)%float = true.
Proof.
  intros F. pose proof (is_finite_not_nan n F) as N. unfold printed_number.
  destruct (is_zero n) eqn:Z; [|now apply eqb_refl_number].
  apply eqb_rank; [reflexivity|exact N|]. apply is_zero_rank in Z as [_ ->].
  rank_lia.
Qed.

Lemma jsval_eqv_get_prop_cons k v1 v2 p1 p2 :
  jsval_eqv v1 v2 ->
  (forall x, jsval_eqv (get_prop p1 x) (get_prop p2 x)) ->
  forall x, jsval_eqv (get_prop ((k, v1) :: p1) x) (get_prop ((k, v2) :: p2) x).
Proof.
  intros Hv Hp x. cbn [get_prop]. destruct (String.eqb k x); [exact Hv|apply Hp].
Qed.

(** One exported and re-imported transaction. *)
Lemma Transaction_roundtrip t :
  is_finite (amount t) = true ->
  jsval_eqv
    (JSON_parse (match JSON_stringify (Transaction_to_js t) with
                 | Some d => d
                 | None => J_null
                 end))
    (Transaction_to_js t).
Proof.
  intros F. unfold Transaction_to_js. cbn [JSON_stringify].
  unfold Number_isFinite. rewrite F.
  destruct (details t) as [d|]; cbn; constructor.
  - repeat (apply jsval_eqv_get_prop_cons;
            [first [apply eqv_str | apply eqv_num, printed_number_eqb, F]|]).
    intros x. cbn [get_prop]. constructor.
  - do 5 (apply jsval_eqv_get_prop_cons;
            [first [apply eqv_str | apply eqv_num, printed_number_eqb, F]|]).
    intros x. cbn [get_prop]. destruct (String.eqb "details" x); constructor.
Qed.

(** C7, as stated, fails: an entry whose amount is [Infinity] is exported
    with the amount [null], which is what the import reads back. *)
Lemma exportThenImport_loses_infinite_amount :
  exportThenImport [infiniteIncome]
  = JArr [JObj [("id", JStr "a"); ("date", JStr "2026-01-05");
                ("type", JStr "Income"); ("category", JStr "Salary");
                ("amount", JNull)]]
  /\ ~ jsval_eqv (exportThenImport [infiniteIncome])
                 (Transactions_to_js [infiniteIncome]).
Proof.
  split; [reflexivity|].
  intros H. vm_compute in H.
  inversion H as [| | | | |? ? H1|]; subst.
  inversion H1 as [|? ? ? ? H2 _]; subst.
  inversion H2 as [| | | | | |? ? H3]; subst.
  specialize (H3 "amount"). cbn in H3. inversion H3.
Qed.

(** C7, amended: for every entry collection whose amounts are all finite,
    exporting it and importing the exported file yields a collection equal
    by value to the original. *)
Theorem exportThenImport_roundtrip (l : list Transaction) :
  Forall (fun t => Number_isFinite (amount t) = true) l ->
  jsval_eqv (exportThenImport l) (Transactions_to_js l).
Proof.
  intros F. unfold exportThenImport, Transactions_to_js, downloadJSON, importFile.
  cbn [JSON_stringify safeParseJSON JSON_parse]. constructor.
  induction F as [|t r Ft Fr IH]; cbn [List.map]; constructor; [|exact IH].
  apply Transaction_roundtrip, Ft.
Qed.

(** A collection with one finite amount. *)
Lemma exportThenImport_roundtrip_witness :
  Forall (fun t => Number_isFinite (amount t) = true) [incomeOf 1000%float]
  /\ jsval_eqv (exportThenImport [incomeOf 1000%float])
               (Transactions_to_js [incomeOf 1000%float]).
Proof.
  assert (F : Forall (fun t => Number_isFinite (amount t) = true) [incomeOf 1000%float])
    by (repeat constructor).
  split; [exact F|]. apply (exportThenImport_roundtrip [incomeOf 1000%float] F).
Defined.

(** ** Order of the entries *)

Lemma filter_Permutation {A} (f : A -> bool) (l l' : list A) :
  Permutation l l' -> Permutation (List.filter f l) (List.filter f l').
Proof.
  induction 1 as [|x l l' P IH|x y l|l l' l'' P1 IH1 P2 IH2]; cbn.
  - constructor.
  - destruct (f x); [now constructor|exact IH].
  - destruct (f x), (f y); try reflexivity. apply perm_swap.
  - now transitivity (List.filter f l').
Qed.

Lemma absTotal_nonneg xs : 0 <= absTotal xs.
Proof. induction xs as [|x r IH]; cbn [absTotal fold_right]; [lia|]. fold (absTotal r). lia. Qed.

(** The sum from the left of whole numbers is exact while the absolute
    values sum to at most 2^53. *)
Lemma fold_add_of_int xs : forall s,
  Forall wholeNumber xs -> Z.abs s + absTotal xs <= 2 ^ 53 ->
  fold_left (fun acc x => (acc + x)%float) xs (of_int s) = of_int (s + intTotal xs).
Proof.
  induction xs as [|x r IH]; intros s W B; cbn [fold_left intTotal fold_right].
  - now rewrite Z.add_0_r.
  - inversion W as [|? ? Wx Wr]; subst. cbn [absTotal fold_right] in B.
    fold (absTotal r) in B. fold (intTotal r).
    pose proof (absTotal_nonneg r) as N.
    unfold wholeNumber in Wx. rewrite Wx at 1. rewrite add_of_int by lia.
    rewrite IH; [f_equal; lia|exact Wr|lia].
Qed.

Lemma sumFromLeft_of_int xs :
  Forall wholeNumber xs -> absTotal xs <= 2 ^ 53 ->
  sumFromLeft xs = of_int (intTotal xs).
Proof.
  intros W B. unfold sumFromLeft.
  change 0%float with (of_int 0). rewrite fold_add_of_int; [reflexivity|exact W|].
  cbn [Z.abs]. lia.
Qed.

Lemma intTotal_Permutation xs ys : Permutation xs ys -> intTotal xs = intTotal ys.
Proof. unfold intTotal. induction 1; cbn [fold_right]; lia. Qed.

Lemma absTotal_Permutation xs ys : Permutation xs ys -> absTotal xs = absTotal ys.
Proof. unfold absTotal. induction 1; cbn [fold_right]; lia. Qed.

Lemma absTotal_filter (f : Transaction -> bool) l :
  absTotal (List.map amountOrZero (List.filter f l)) <= absTotal (List.map amountOrZero l).
Proof.
  unfold absTotal. induction l as [|t r IH]; cbn [List.filter List.map fold_right]; [lia|].
  destruct (f t); cbn [List.map fold_right]; lia.
Qed.

Lemma whole_filter (f : Transaction -> bool) l :
  Forall wholeNumber (List.map amountOrZero l) ->
  Forall wholeNumber (List.map amountOrZero (List.filter f l)).
Proof.
  rewrite !Forall_forall. intros H x Hx. apply H.
  apply in_map_iff in Hx as (t & <- & Ht). apply filter_In in Ht as [Ht _].
  apply in_map, Ht.
Qed.

(** Sums of whole numbers do not depend on the order of the entries. *)
Lemma sumAmounts_filter_Permutation (f : Transaction -> bool) l l' :
  Permutation l l' ->
  Forall wholeNumber (List.map amountOrZero l) ->
  absTotal (List.map amountOrZero l) <= 2 ^ 53 ->
  sumAmounts (List.filter f l) = sumAmounts (List.filter f l').
Proof.
  intros P W B.
  assert (W' : Forall wholeNumber (List.map amountOrZero l'))
    by (eapply Permutation_Forall; [apply Permutation_map, P|exact W]).
  assert (B' : absTotal (List.map amountOrZero l') <= 2 ^ 53)
    by (rewrite <- (absTotal_Permutation _ _ (Permutation_map amountOrZero P)); exact B).
  pose proof (absTotal_filter f l). pose proof (absTotal_filter f l').
  rewrite !sumAmounts_map, !sumFromLeft_of_int
    by (first [apply whole_filter; assumption | lia]).
  f_equal. apply intTotal_Permutation, Permutation_map, filter_Permutation, P.
Qed.

(** C8, as stated, fails: the same three Income entries, 2^53, 1 and -2^53,
    sum to 0 in one order and to 1 in another, because 2^53 + 1 rounds to
    2^53. *)
Lemma sums_depend_on_entry_order :
  let big := incomeOf 9007199254740992%float in
  let one := incomeOf 1%float in
  let neg := incomeOf (-9007199254740992)%float in
  Permutation [big; one; neg] [big; neg; one]
  /\ sumByType [big; one; neg] Income = 0%float
  /\ sumByType [big; neg; one] Income = 1%float
  /\ sumForMonthTypeCategory [big; one; neg] "2026-01" Income "Salary" = 0%float
  /\ sumForMonthTypeCategory [big; neg; one] "2026-01" Income "Salary" = 1%float.
Proof.
  cbv zeta. split; [|repeat split; reflexivity].
  apply perm_skip, perm_swap.
Qed.

(** C8, amended: for every entry list and every permutation of it, each
    sum over a kind or over a month/kind/category adds up the same numbers:
    the summands of the two lists are a permutation of each other, and each
    total is their floating-point sum from the left, in the order of the
    entries.  When the summands of the list are whole numbers whose
    absolute values sum to at most 2^53, every addition is exact and the
    two lists yield the same totals. *)
Theorem sums_of_permuted_entries (l l' : list Transaction) :
  Permutation l l' ->
  (forall ty,
      Permutation (summandsByType l ty) (summandsByType l' ty)
      /\ sumByType l ty = sumFromLeft (summandsByType l ty)
      /\ sumByType l' ty = sumFromLeft (summandsByType l' ty))
  /\ (forall m ty cat,
      Permutation (summandsForMonthTypeCategory l m ty cat)
                  (summandsForMonthTypeCategory l' m ty cat)
      /\ sumForMonthTypeCategory l m ty cat
         = sumFromLeft (summandsForMonthTypeCategory l m ty cat)
      /\ sumForMonthTypeCategory l' m ty cat
         = sumFromLeft (summandsForMonthTypeCategory l' m ty cat))
  /\ (Forall wholeNumber (List.map amountOrZero l) ->
      absTotal (List.map amountOrZero l) <= 2 ^ 53 ->
      (forall ty, sumByType l ty = sumByType l' ty)
      /\ (forall m ty cat,
            sumForMonthTypeCategory l m ty cat = sumForMonthTypeCategory l' m ty cat)).
Proof.
  intros P. split; [|split].
  - intros ty. split; [|split].
    + apply Permutation_map, filter_Permutation, P.
    + apply sumAmounts_map.
    + apply sumAmounts_map.
  - intros m ty cat. split; [|split].
    + apply Permutation_map, filter_Permutation, P.
    + apply sumAmounts_map.
    + apply sumAmounts_map.
  - intros W B. split.
    + intros ty. now apply sumAmounts_filter_Permutation.
    + intros m ty cat. now apply sumAmounts_filter_Permutation.
Qed.

Lemma sums_of_permuted_entries_witness :
  Permutation [incomeOf 1%float; incomeOf 2%float] [incomeOf 2%float; incomeOf 1%float]
  /\ Forall wholeNumber (List.map amountOrZero [incomeOf 1%float; incomeOf 2%float])
  /\ absTotal (List.map amountOrZero [incomeOf 1%float; incomeOf 2%float]) <= 2 ^ 53
  /\ sumByType [incomeOf 1%float; incomeOf 2%float] Income
     = sumByType [incomeOf 2%float; incomeOf 1%float] Income.
Proof.
  assert (P : Permutation [incomeOf 1%float; incomeOf 2%float]
                          [incomeOf 2%float; incomeOf 1%float]) by apply perm_swap.
  assert (W : Forall wholeNumber
                (List.map amountOrZero [incomeOf 1%float; incomeOf 2%float]))
    by (repeat constructor).
  assert (B : absTotal (List.map amountOrZero [incomeOf 1%float; incomeOf 2%float])
              <= 2 ^ 53) by (vm_compute; discriminate).
  split; [exact P|]. split; [exact W|]. split; [exact B|].
  apply (proj1 (proj2 (proj2 (sums_of_permuted_entries _ _ P)) W B) Income).
Defined.

(** ** Budget edits *)

Lemma setBudget_allFinite b m t c v : allFinite b -> allFinite (setBudget b m t c v).
Proof.
  unfold allFinite, setBudget. intros H. apply map_Forall_insert_2; [|exact H].
  destruct (Number_isFinite v) eqn:E; [exact E|reflexivity].
Qed.

Lemma applyEdits_allFinite edits : forall b, allFinite b -> allFinite (applyEdits edits b).
Proof.
  induction edits as [|[[[m t] c] v] r IH]; intros b H; [exact H|].
  cbn. apply IH, setBudget_allFinite, H.
Qed.

Lemma getBudget_finite b m t c : allFinite b -> is_finite (getBudget b m t c) = true.
Proof.
  unfold allFinite, getBudget. intros H.
  destruct (b !! budgetKey m t c) as [v|] eqn:E; [|reflexivity].
  exact (H _ _ E).
Qed.

Lemma getBudget_setBudget b m t c v :
  getBudget (setBudget b m t c v) m t c = if Number_isFinite v then v else 0%float.
Proof. unfold getBudget, setBudget. now rewrite lookup_insert_eq. Qed.

Lemma monthBudgetTotal_not_nan b m t : allFinite b -> is_nan (monthBudgetTotal b m t) = false.
Proof.
  intros H. unfold monthBudgetTotal.
  assert (G : forall cats acc, is_nan acc = false ->
            is_nan (fold_left (fun acc cat => (acc + getBudget b m t cat)%float) cats acc) = false).
  { induction cats as [|c r IH]; intros acc Hacc; [exact Hacc|].
    cbn. apply IH, add_not_nan; [exact Hacc|apply getBudget_finite, H]. }
  apply G. reflexivity.
Qed.

(** C9, as stated, fails: two finite allocations of 2^1023 are stored as
    they are, and their month total is [Infinity]. *)
Lemma monthBudgetTotal_overflows :
  let b := applyEdits [("2026-01", Expenses, "Rent", two_1023);
                       ("2026-01", Expenses, "Transport", two_1023)] ∅ in
  Number_isFinite two_1023 = true
  /\ allFinite b
  /\ monthBudgetTotal b "2026-01" Expenses = infinity.
Proof.
  cbv zeta. split; [reflexivity|]. split; [|vm_compute; reflexivity].
  apply applyEdits_allFinite. apply map_Forall_empty.
Qed.

(** C9, amended: [setBudget] writes 0 for a non-finite value, so from a map
    of finite values every sequence of edits leads to a map of finite
    values, and [monthBudgetTotal] is never NaN on it. *)
Theorem budget_edits_stay_finite (b : BudgetStore) (edits : list BudgetEdit) :
  allFinite b ->
  (forall m t c v, Number_isFinite v = false ->
      getBudget (setBudget b m t c v) m t c = 0%float)
  /\ allFinite (applyEdits edits b)
  /\ (forall m t c, Number_isFinite (getBudget (applyEdits edits b) m t c) = true)
  /\ (forall m t, is_nan (monthBudgetTotal (applyEdits edits b) m t) = false).
Proof.
  intros H. pose proof (applyEdits_allFinite edits b H) as A.
  split; [|split; [exact A|split]].
  - intros m t c v Hv. rewrite getBudget_setBudget, Hv. reflexivity.
  - intros m t c. apply getBudget_finite, A.
  - intros m t. apply monthBudgetTotal_not_nan, A.
Qed.

Lemma budget_edits_stay_finite_witness :
  allFinite ∅
  /\ allFinite (applyEdits [("2026-01", Expenses, "Rent", 500%float);
                            ("2026-01", Expenses, "Health", infinity)] ∅).
Proof.
  assert (E : allFinite ∅) by apply map_Forall_empty.
  split; [exact E|].
  apply (budget_edits_stay_finite ∅
           [("2026-01", Expenses, "Rent", 500%float);
            ("2026-01", Expenses, "Health", infinity)] E).
Defined.

(** * Further properties *)

(** ** The months of the entries *)

Lemma String_ltb_trans a b c :
  String.ltb a b = true -> String.ltb b c = true -> String.ltb a c = true.
Proof.
  unfold String.ltb. intros H1 H2.
  destruct (String.compare a b) eqn:E1; try discriminate.
  destruct (String.compare b c) eqn:E2; try discriminate.
  apply String_as_OT.cmp_lt in E1, E2.
  pose proof (String_as_OT.lt_trans _ _ _ E1 E2) as L.
  apply String_as_OT.cmp_lt in L. unfold String_as_OT.cmp in L. now rewrite L.
Qed.

Lemma String_ltb_irrefl a : String.ltb a a = false.
Proof.
  unfold String.ltb. destruct (String.compare a a) eqn:E; try reflexivity.
  pose proof (String.compare_antisym a a) as H. rewrite E in H. discriminate.
Qed.

Lemma String_ltb_connected a b :
  String.ltb a b = false -> a <> b -> String.ltb b a = true.
Proof.
  unfold String.ltb. intros H N. rewrite String.compare_antisym.
  destruct (String.compare a b) eqn:E; try discriminate; [|reflexivity].
  apply String.compare_eq_iff in E. contradiction.
Qed.

Lemma ascending_NoDup l : ascending l -> NoDup l.
Proof.
  induction 1 as [|x r S IH F]; constructor; [|exact IH].
  intros I. rewrite Forall_forall in F. specialize (F x I).
  rewrite String_ltb_irrefl in F. discriminate.
Qed.

Lemma Set_add_NoDup k set : NoDup set -> NoDup (Set_add k set).
Proof.
  induction set as [|x r IH]; intros N; cbn.
  - repeat constructor. intros [].
  - destruct (String.eqb_spec x k) as [->|D]; [exact N|].
    inversion N as [|? ? Nx Nr]; subst. constructor; [|apply IH, Nr].
    intros I. apply Set_add_In in I as [I|I]; [congruence|contradiction].
Qed.

Lemma months_set_NoDup (l : list Transaction) : forall set,
  NoDup set ->
  NoDup (fold_left (fun set t => Set_add (monthKeyFromDate (date t)) set) l set).
Proof.
  induction l as [|t r IH]; intros set N; cbn; [exact N|].
  apply IH, Set_add_NoDup, N.
Qed.

Lemma sort_insert_ascending k l :
  ascending l -> ~ In k l -> ascending (sort_insert k l).
Proof.
  unfold ascending. induction 1 as [|x r S IH F]; intros N; cbn.
  - repeat constructor.
  - destruct (String.ltb k x) eqn:L.
    + constructor; [now constructor|]. constructor; [exact L|].
      rewrite Forall_forall in F |- *. intros y Hy.
      apply String_ltb_trans with x; [exact L|apply F, Hy].
    + assert (X : String.ltb x k = true).
      { apply String_ltb_connected; [exact L|]. intros ->. apply N. now left. }
      constructor; [apply IH; intros I; apply N; now right|].
      apply Forall_forall. intros y Hy.
      apply sort_insert_In in Hy as [->|Hy]; [exact X|].
      rewrite Forall_forall in F. apply F, Hy.
Qed.

Lemma Array_sort_strings_ascending l : NoDup l -> ascending (Array_sort_strings l).
Proof.
  unfold Array_sort_strings.
  assert (G : forall acc, ascending acc -> NoDup l ->
            (forall x, In x l -> ~ In x acc) ->
            ascending (fold_left (fun sorted k => sort_insert k sorted) l acc)).
  { induction l as [|k r IH]; intros acc A N D; cbn; [exact A|].
    inversion N as [|? ? Nk Nr]; subst. apply IH.
    - apply sort_insert_ascending; [exact A|]. apply D. now left.
    - exact Nr.
    - intros x Hx I. apply sort_insert_In in I as [->|I]; [contradiction|].
      apply (D x); [now right|exact I]. }
  intros N. apply G; [constructor|exact N|]. intros x _ [].
Qed.

Lemma monthKeyFromDate_length d :
  String.length (monthKeyFromDate d) = Nat.min 7 (String.length d).
Proof.
  unfold monthKeyFromDate, slice0. generalize 7%nat. intros n. revert d.
  induction n as [|n IH]; intros d; destruct d as [|c d]; cbn; try reflexivity.
  now rewrite IH.
Qed.

(** [allMonthsInTx] lists the month keys of the entries, each once, in
    strictly ascending order; a month key has at most 7 code units. *)
Theorem allMonthsInTx_ascending (l : list Transaction) :
  ascending (allMonthsInTx l)
  /\ NoDup (allMonthsInTx l)
  /\ (forall m, In m (allMonthsInTx l)
                <-> Exists (fun t => monthKeyFromDate (date t) = m) l)
  /\ (forall m, In m (allMonthsInTx l) -> (String.length m <= 7)%nat).
Proof.
  assert (A : ascending (allMonthsInTx l)).
  { apply Array_sort_strings_ascending, months_set_NoDup. constructor. }
  split; [exact A|]. split; [apply ascending_NoDup, A|]. split.
  - intros m. apply allMonthsInTx_In.
  - intros m I. apply allMonthsInTx_In, Exists_exists in I as (t & _ & <-).
    rewrite monthKeyFromDate_length. lia.
Qed.

(** [monthTotals] has one row per month of [allMonthsInTx], in its order;
    each row is found again by its month, and its net is income minus
    expenses, savings and investments. *)
Theorem monthTotals_one_row_per_month (l : list Transaction) :
  List.map month (monthTotals l) = allMonthsInTx l
  /\ NoDup (List.map month (monthTotals l))
  /\ (forall r, In r (monthTotals l) ->
        selectedMonthStats l (month r) = r
        /\ r = monthRow l (month r)
        /\ net r = (income r - expenses r - savings r - investments r)%float).
Proof.
  assert (E : List.map month (monthTotals l) = allMonthsInTx l).
  { unfold monthTotals. rewrite map_map. apply map_id. }
  split; [exact E|]. split.
  - rewrite E. apply ascending_NoDup, Array_sort_strings_ascending, months_set_NoDup.
    constructor.
  - intros r Hr. unfold monthTotals in Hr. apply in_map_iff in Hr as (k & <- & Hk).
    cbn [month monthRow]. split; [|split; reflexivity].
    unfold selectedMonthStats, monthTotals. rewrite find_month_row.
    destruct (in_dec string_dec k (allMonthsInTx l)) as [_|N]; [reflexivity|contradiction].
Qed.

(** ** The selected month *)

Lemma ascending_last_greatest l :
  ascending l -> l <> [] ->
  In (nth (List.length l - 1) l "") l
  /\ forall m, In m l ->
       m = nth (List.length l - 1) l ""
       \/ String.ltb m (nth (List.length l - 1) l "") = true.
Proof.
  unfold ascending. induction 1 as [|x r S IH F]; intros N; [contradiction|].
  destruct r as [|y r'].
  - cbn. split; [now left|]. intros m [<-|[]]. now left.
  - assert (Ny : y :: r' <> []) by discriminate.
    destruct (IH Ny) as [I G].
    replace (nth (List.length (x :: y :: r') - 1) (x :: y :: r') "")
      with (nth (List.length (y :: r') - 1) (y :: r') "")
      by (cbn; now rewrite Nat.sub_0_r).
    split; [now right|]. intros m [<-|Hm]; [|now apply G].
    right. rewrite Forall_forall in F. apply F, I.
Qed.

(** The effect that follows the entries never touches them, the form or
    the budgets.  It keeps a selected month of 7 code units, and does
    nothing without entries; otherwise it selects the greatest month of
    the entries, whose row [selectedMonthStats] then shows. *)
Theorem syncSelectedMonth_selects_latest (s : State) :
  transactions (syncSelectedMonth s) = transactions s
  /\ budgets (syncSelectedMonth s) = budgets s
  /\ (transactions s = [] -> syncSelectedMonth s = s)
  /\ (String.length (selectedMonth s) = 7%nat -> syncSelectedMonth s = s)
  /\ (transactions s <> [] -> String.length (selectedMonth s) <> 7%nat ->
      In (selectedMonth (syncSelectedMonth s)) (allMonthsInTx (transactions s))
      /\ (forall m, In m (allMonthsInTx (transactions s)) ->
            m = selectedMonth (syncSelectedMonth s)
            \/ String.ltb m (selectedMonth (syncSelectedMonth s)) = true)
      /\ In (selectedMonthStats (transactions s) (selectedMonth (syncSelectedMonth s)))
            (monthTotals (transactions s))).
Proof.
  unfold syncSelectedMonth.
  set (months := allMonthsInTx (transactions s)).
  split; [|split; [|split; [|split]]].
  - destruct (List.length months =? 0)%nat; [reflexivity|].
    destruct (_ || _); reflexivity.
  - destruct (List.length months =? 0)%nat; [reflexivity|].
    destruct (_ || _); reflexivity.
  - intros E. subst months. rewrite E. reflexivity.
  - intros L. destruct (List.length months =? 0)%nat; [reflexivity|].
    rewrite L. destruct (selectedMonth s); [discriminate|reflexivity].
  - intros N L.
    assert (M : months <> []).
    { destruct (transactions s) as [|t r] eqn:E; [contradiction|].
      intros Em. assert (I : In (monthKeyFromDate (date t)) months).
      { unfold months. apply allMonthsInTx_In. now left. }
      rewrite Em in I. destruct I. }
    assert (A : ascending months)
      by (apply Array_sort_strings_ascending, months_set_NoDup; constructor).
    destruct (ascending_last_greatest months A M) as [I G].
    destruct (List.length months =? 0)%nat eqn:Z.
    { apply Nat.eqb_eq in Z. destruct months; [contradiction|discriminate]. }
    assert (C : negb (ToBoolean_string (selectedMonth s))
                || negb (String.length (selectedMonth s) =? 7)%nat = true).
    { apply orb_true_iff. right. apply negb_true_iff, Nat.eqb_neq, L. }
    rewrite C. cbn [selectedMonth setSelectedMonth].
    split; [exact I|]. split; [exact G|].
    unfold selectedMonthStats, monthTotals. rewrite find_month_row.
    fold months.
    destruct (in_dec string_dec _ months) as [_|X]; [|contradiction].
    apply in_map, I.
Qed.

Lemma syncSelectedMonth_selects_latest_witness :
  let s := {| transactions := [incomeOf 1%float; rentOf 2%float];
              form_date := "2026-01-05"; form_type := Expenses;
              form_category := "Rent"; form_amount := ""; form_details := "";
              budgets := ∅; selectedMonth := "2026" |} in
  transactions s <> [] /\ String.length (selectedMonth s) <> 7%nat
  /\ In (selectedMonth (syncSelectedMonth s)) (allMonthsInTx (transactions s)).
Proof.
  intros s.
  assert (N : transactions s <> []) by discriminate.
  assert (L : String.length (selectedMonth s) <> 7%nat) by discriminate.
  split; [exact N|]. split; [exact L|].
  apply (proj2 (proj2 (proj2 (proj2 (syncSelectedMonth_selects_latest s)))) N L).
Defined.

(** ** Adding, deleting and clearing *)


Lemma filter_all {A} (f : A -> bool) l :
  (forall x, In x l -> f x = true) -> List.filter f l = l.
Proof.
  induction l as [|x r IH]; intros H; [reflexivity|]. cbn.
  rewrite (H x) by now left. f_equal. apply IH. intros y Hy. apply H. now right.
Qed.


Lemma keeps_other_ids id0 t : negb (String.eqb (id t) id0) = true <-> id t <> id0.
Proof. rewrite negb_true_iff. apply String.eqb_neq. Qed.


Lemma addTransaction_accepted fresh s :
  guardPasses s ->
  exists tx,
    transactions (addTransaction fresh s) = tx :: transactions s
    /\ id tx = fresh /\ date tx = form_date s /\ type tx = form_type s
    /\ category tx = form_category s /\ amount tx = Number (form_amount s).
Proof.
  intros (D & C & F). unfold addTransaction.
  assert (Dt : ToBoolean_string (form_date s) = true).
  { destruct (ToBoolean_string (form_date s)) eqn:E; [reflexivity|].
    apply ToBoolean_string_false in E. contradiction. }
  assert (Ct : ToBoolean_string (form_category s) = true).
  { destruct (ToBoolean_string (form_category s)) eqn:E; [reflexivity|].
    apply ToBoolean_string_false in E. contradiction. }
  rewrite Dt, Ct, TxType_string_nonempty, F. cbn [negb orb transactions].
  eexists. split; [reflexivity|]. cbn. repeat split.
Qed.

(** An accepted entry whose identifier no other entry carries is undone by
    deleting that identifier: the entry collection is the one before. *)
Theorem add_then_delete (fresh : string) (s : State) :
  guardPasses s -> ~ In fresh (ids s) ->
  transactions (addTransaction fresh s) <> transactions s
  /\ transactions (deleteTransaction fresh (addTransaction fresh s)) = transactions s.
Proof.
  intros G N. destruct (addTransaction_accepted fresh s G) as (tx & E & I & _).
  split.
  - rewrite E. intros X. apply (f_equal (@List.length _)) in X. cbn in X. lia.
  - cbn [deleteTransaction transactions withTransactions]. rewrite E. cbn [List.filter].
    rewrite I, String.eqb_refl. cbn [negb].
    apply filter_all. intros t Ht. apply keeps_other_ids. intros X. apply N.
    unfold ids. rewrite <- X. now apply in_map.
Qed.

Lemma add_then_delete_witness :
  let s := {| transactions := [incomeOf 1%float];
              form_date := "2026-01-05"; form_type := Expenses;
              form_category := "Rent"; form_amount := "12.5"; form_details := "";
              budgets := ∅; selectedMonth := "2026-01" |} in
  guardPasses s /\ ~ In "b" (ids s)
  /\ transactions (deleteTransaction "b" (addTransaction "b" s)) = transactions s.
Proof.
  intros s.
  assert (G : guardPasses s).
  { repeat split; try discriminate. }
  assert (N : ~ In "b" (ids s)).
  { cbn. intros [X|[]]. discriminate. }
  split; [exact G|]. split; [exact N|].
  apply (proj2 (add_then_delete "b" s G N)).
Defined.

Lemma NoDup_filter_map {A B} (g : A -> B) (f : A -> bool) l :
  NoDup (List.map g l) -> NoDup (List.map g (List.filter f l)).
Proof.
  induction l as [|x r IH]; cbn; intros H; [constructor|].
  apply NoDup_cons_iff in H as [Hx Hr].
  destruct (f x); [|now apply IH]. cbn. apply NoDup_cons_iff. split; [|now apply IH].
  intros X. apply Hx. apply in_map_iff in X as (y & E & Hy).
  apply filter_In in Hy as [Hy _]. rewrite <- E. now apply in_map.
Qed.

Lemma delete_one (l : list Transaction) : forall t,
  NoDup (List.map id l) -> In t l ->
  Permutation (t :: List.filter (fun u => negb (String.eqb (id u) (id t))) l) l.
Proof.
  induction l as [|x r IH]; intros t H Ht; [destruct Ht|].
  cbn [List.map] in H. apply NoDup_cons_iff in H as [Hx Hr].
  cbn [List.filter]. destruct Ht as [->|Ht].
  - rewrite String.eqb_refl. cbn [negb]. rewrite filter_all; [reflexivity|].
    intros u Hu. apply keeps_other_ids. intros E. apply Hx. rewrite <- E. now apply in_map.
  - assert (N : id x <> id t).
    { intros E. apply Hx. rewrite E. now apply in_map. }
    apply keeps_other_ids in N. rewrite N.
    rewrite perm_swap. constructor. now apply IH.
Qed.

(** While every new entry gets an identifier no entry carries, the
    identifiers of the entries stay distinct through adding, deleting and
    clearing; deleting the identifier of an entry then removes that entry
    and no other. *)
Theorem ids_stay_distinct (s : State) :
  NoDup (ids s) ->
  (forall fresh, ~ In fresh (ids s) -> NoDup (ids (addTransaction fresh s)))
  /\ (forall id0, NoDup (ids (deleteTransaction id0 s)))
  /\ (forall confirmed, NoDup (ids (clearAll confirmed s)))
  /\ (forall t, In t (transactions s) ->
        Permutation (t :: transactions (deleteTransaction (id t) s)) (transactions s)
        /\ S (List.length (transactions (deleteTransaction (id t) s)))
           = List.length (transactions s)).
Proof.
  intros H. split; [|split; [|split]].
  - intros fresh N. unfold addTransaction.
    destruct (_ || _); [exact H|]. unfold ids. cbn. apply NoDup_cons_iff. now split.
  - intros id0. unfold ids. cbn. now apply NoDup_filter_map.
  - intros [|]; cbn; [constructor|exact H].
  - intros t Ht. pose proof (delete_one (transactions s) t H Ht) as P.
    split; [exact P|]. apply Permutation_length in P. exact P.
Qed.

Lemma ids_stay_distinct_witness :
  let s := {| transactions := [incomeOf 1%float];
              form_date := "2026-01-05"; form_type := Expenses;
              form_category := "Rent"; form_amount := "12.5"; form_details := "";
              budgets := ∅; selectedMonth := "2026-01" |} in
  NoDup (ids s) /\ NoDup (ids (deleteTransaction "a" s)).
Proof.
  intros s.
  assert (H : NoDup (ids s)).
  { cbn. apply NoDup_cons_iff. split; [intros []|constructor]. }
  split; [exact H|]. apply (proj1 (proj2 (ids_stay_distinct s H)) "a").
Defined.

Lemma sub_zero x : (x - 0)%float = x.
Proof.
  apply Prim2SF_inj. rewrite sub_spec, Prim2SF_zero.
  destruct (Prim2SF x) as [[|]|[|]| |sx mx ex]; reflexivity.
Qed.

Lemma monthTrackedTotal_nil m t : monthTrackedTotal [] m t = 0%float.
Proof. destruct t; reflexivity. Qed.

(** A confirmed [clearAll] empties the entry collection and keeps the
    budgets: no month, no month row and no top expense is left, every
    total is 0, and each Plan header shows a tracked total of 0 and its
    budget total as the variance.  A refused one changes nothing. *)
Theorem clearAll_empties (s : State) (m : string) :
  clearAll false s = s
  /\ transactions (clearAll true s) = []
  /\ budgets (clearAll true s) = budgets s
  /\ allMonthsInTx (transactions (clearAll true s)) = []
  /\ monthTotals (transactions (clearAll true s)) = []
  /\ topExpenses (transactions (clearAll true s)) m = []
  /\ selectedMonthStats (transactions (clearAll true s)) m = zeroRow m
  /\ totals (transactions (clearAll true s))
     = {| totalIncome := 0; totalExpenses := 0; totalSavings := 0;
          totalInvestments := 0; totalNet := 0 |}%float
  /\ (forall h, In h (planHeaders (clearAll true s)) ->
        trackedTotal h = 0%float /\ variance h = budgetTotal h).
Proof.
  repeat split; try reflexivity.
  - unfold planHeaders in H. apply in_map_iff in H as (t & <- & _).
    cbn [trackedTotal]. apply monthTrackedTotal_nil.
  - unfold planHeaders in H. apply in_map_iff in H as (t & <- & _).
    cbn [variance budgetTotal clearAll negb transactions withTransactions].
    rewrite monthTrackedTotal_nil. apply sub_zero.
Qed.

(** ** Invariants of the state *)

Lemma Forall_filter_keep {A} (P : A -> Prop) (f : A -> bool) l :
  Forall P l -> Forall P (List.filter f l).
Proof.
  rewrite !Forall_forall. intros H x Hx. apply filter_In in Hx. apply H, Hx.
Qed.

Lemma finite_not_infinite x : is_finite x = true -> is_infinity x = false.
Proof.
  unfold is_finite. intros H. apply negb_true_iff, orb_false_iff in H. apply H.
Qed.

Lemma perform_finite a s : finiteState s -> finiteState (perform a s).
Proof.
  intros [Ft Fb]. destruct a; cbn [perform].
  - split; assumption.
  - unfold chooseType. destruct (TxType_eqb _ _); split; assumption.
  - unfold selectCategory. destruct (existsb _ _); split; assumption.
  - split; assumption.
  - split; assumption.
  - unfold addTransaction.
    destruct (Number_isFinite (Number (form_amount s))) eqn:F.
    + destruct (_ || _); [split; assumption|].
      split; [|exact Fb]. cbn [transactions]. constructor; [exact F|exact Ft].
    + rewrite orb_true_r. split; assumption.
  - split; [|exact Fb]. cbn. now apply Forall_filter_keep.
  - destruct confirmed; cbn; split; try assumption. constructor.
  - split; [exact Ft|]. cbn. now apply setBudget_allFinite.
  - split; assumption.
  - unfold syncSelectedMonth. destruct (_ =? _)%nat; [split; assumption|].
    destruct (_ || _); split; assumption.
Qed.

(** Through any sequence of the handlers and effects (an import apart),
    amounts and allocations stay finite once they are, and then no sum by
    type, no month/type/category sum and no budget total is NaN. *)
Theorem run_keeps_finite (acts : list Action) (s : State) :
  finiteState s ->
  finiteState (run acts s)
  /\ (forall ty, is_nan (sumByType (transactions (run acts s)) ty) = false)
  /\ (forall m ty c,
        is_nan (sumForMonthTypeCategory (transactions (run acts s)) m ty c) = false)
  /\ (forall m ty, is_nan (monthBudgetTotal (budgets (run acts s)) m ty) = false).
Proof.
  intros F.
  assert (G : finiteState (run acts s)).
  { unfold run. revert s F. induction acts as [|a r IH]; intros s F; [exact F|].
    cbn [fold_left]. apply IH, perform_finite, F. }
  split; [exact G|]. destruct G as [Gt Gb].
  assert (I : Forall (fun t => is_infinity (amount t) = false) (transactions (run acts s))).
  { eapply Forall_impl; [|exact Gt]. intros t. apply finite_not_infinite. }
  split; [|split].
  - intros ty. apply sumAmounts_not_nan, Forall_filter_keep, I.
  - intros m ty c. apply sumAmounts_not_nan, Forall_filter_keep, I.
  - intros m ty. apply monthBudgetTotal_not_nan, Gb.
Qed.

Lemma run_keeps_finite_witness :
  finiteState form_empty_amount
  /\ finiteState
       (run [AddTransaction "a"; EditBudget Expenses "Rent" "1e999"] form_empty_amount).
Proof.
  assert (F : finiteState form_empty_amount).
  { split; [repeat constructor|]. unfold allFinite. cbn. apply map_Forall_empty. }
  split; [exact F|].
  apply (proj1 (run_keeps_finite
                  [AddTransaction "a"; EditBudget Expenses "Rent" "1e999"]
                  form_empty_amount F)).
Defined.

Lemma CATEGORIES_NoDup ty : NoDup (CATEGORIES ty).
Proof.
  destruct ty; cbn;
    repeat (apply NoDup_cons_iff; split; [cbn; intuition discriminate|]); constructor.
Qed.

Lemma existsb_eqb_In c l : existsb (String.eqb c) l = true <-> In c l.
Proof.
  rewrite existsb_exists. split.
  - intros (x & Hx & E). apply String.eqb_eq in E. now subst.
  - intros H. exists c. split; [exact H|apply String.eqb_refl].
Qed.

Lemma first_category_declared t :
  In (match CATEGORIES t with c :: _ => c | [] => "" end) (CATEGORIES t).
Proof. destruct t; now left. Qed.

Lemma perform_declared a s : declaredState s -> declaredState (perform a s).
Proof.
  intros [Df Dt]. destruct a; cbn [perform].
  - split; assumption.
  - unfold chooseType. destruct (TxType_eqb _ _); [split; assumption|].
    split; [|exact Dt]. cbn [form_category form_type]. apply first_category_declared.
  - unfold selectCategory. destruct (existsb _ _) eqn:E; [|split; assumption].
    split; [|exact Dt]. cbn [form_category form_type setCategory].
    apply existsb_eqb_In, E.
  - split; assumption.
  - split; assumption.
  - unfold addTransaction. destruct (_ || _); [split; assumption|].
    split; [exact Df|]. cbn [transactions]. constructor; [exact Df|exact Dt].
  - split; [exact Df|]. cbn. now apply Forall_filter_keep.
  - destruct confirmed; cbn; split; try assumption. constructor.
  - split; assumption.
  - split; assumption.
  - unfold syncSelectedMonth. destruct (_ =? _)%nat; [split; assumption|].
    destruct (_ || _); split; assumption.
Qed.

Lemma filter_disjoint_app {A} (f g : A -> bool) l :
  (forall x, f x = true -> g x = false) ->
  Permutation (List.filter f l ++ List.filter g l) (List.filter (fun x => f x || g x) l).
Proof.
  intros D. induction l as [|x r IH]; cbn [List.filter]; [reflexivity|].
  destruct (f x) eqn:F.
  - rewrite (D x F). cbn [orb app]. now constructor.
  - cbn [orb]. destruct (g x); [|exact IH].
    rewrite <- Permutation_middle. now constructor.
Qed.

(** Selecting by each key of a duplicate-free list in turn selects every
    element once. *)
Lemma partition_by_key {A} (key : A -> string) (base : A -> bool) l : forall cs,
  NoDup cs ->
  Permutation
    (concat (List.map (fun c => List.filter (fun x => base x && String.eqb (key x) c) l) cs))
    (List.filter (fun x => base x && existsb (String.eqb (key x)) cs) l).
Proof.
  induction cs as [|c cs IH]; intros N; cbn [List.map concat existsb].
  - induction l as [|x r IHl]; cbn [List.filter]; [reflexivity|].
    now rewrite andb_false_r.
  - apply NoDup_cons_iff in N as [Nc Ncs].
    rewrite (IH Ncs).
    rewrite filter_disjoint_app.
    + erewrite filter_ext; [reflexivity|]. intros x. cbn beta.
      destruct (base x); reflexivity.
    + intros x H. apply andb_true_iff in H as [_ E]. apply String.eqb_eq in E.
      apply andb_false_iff. right.
      destruct (existsb (String.eqb (key x)) cs) eqn:X; [|reflexivity].
      apply existsb_eqb_In in X. rewrite E in X. contradiction.
Qed.

Lemma partition_covering {A} (key : A -> string) (base : A -> bool) l cs :
  NoDup cs -> (forall x, In x l -> base x = true -> In (key x) cs) ->
  Permutation
    (concat (List.map (fun c => List.filter (fun x => base x && String.eqb (key x) c) l) cs))
    (List.filter base l).
Proof.
  intros N C. rewrite (partition_by_key key base l cs N).
  erewrite filter_ext_in; [reflexivity|]. intros x Hx. cbn beta.
  destruct (base x) eqn:B; [|reflexivity]. cbn [andb].
  apply existsb_eqb_In, C; assumption.
Qed.

Lemma byCategory_partition l m ty :
  Forall (fun t => In (category t) (CATEGORIES (type t))) l ->
  Permutation
    (concat (List.map (fun c => List.filter (ofMonthTypeCategory m ty c) l) (CATEGORIES ty)))
    (List.filter (ofMonthType m ty) l).
Proof.
  intros D. apply (partition_covering category (ofMonthType m ty) l (CATEGORIES ty)).
  - apply CATEGORIES_NoDup.
  - intros t Ht B. rewrite Forall_forall in D. specialize (D t Ht).
    unfold ofMonthType in B. apply andb_true_iff in B as [_ B].
    apply TxType_eqb_eq in B. now rewrite <- B.
Qed.

(** Through any sequence of the handlers and effects (an import apart),
    the form and the entries keep categories declared for their type once
    they have them; then the month/type/category selections of the
    categories of a type hold each entry of that month and type once, so
    no entry is left out of a tracked total or counted twice. *)
Theorem run_keeps_declared (acts : list Action) (s : State) :
  declaredState s ->
  declaredState (run acts s)
  /\ (forall m ty,
        Permutation
          (concat (List.map
                     (fun c => List.filter (ofMonthTypeCategory m ty c)
                                 (transactions (run acts s)))
                     (CATEGORIES ty)))
          (List.filter (ofMonthType m ty) (transactions (run acts s)))).
Proof.
  intros D.
  assert (G : declaredState (run acts s)).
  { unfold run. revert s D. induction acts as [|a r IH]; intros s D; [exact D|].
    cbn [fold_left]. apply IH, perform_declared, D. }
  split; [exact G|]. intros m ty. apply byCategory_partition, G.
Qed.

Lemma run_keeps_declared_witness :
  declaredState form_empty_amount
  /\ declaredState
       (run [ChooseType Income; SelectCategory "Rent"; AddTransaction "a"]
            form_empty_amount).
Proof.
  assert (D : declaredState form_empty_amount).
  { split; [now left|]. repeat constructor. }
  split; [exact D|].
  apply (proj1 (run_keeps_declared
                  [ChooseType Income; SelectCategory "Rent"; AddTransaction "a"]
                  form_empty_amount D)).
Defined.

(** ** Tracked totals of whole amounts *)

Lemma intTotal_app xs ys : intTotal (xs ++ ys) = intTotal xs + intTotal ys.
Proof. unfold intTotal. induction xs as [|x r IH]; cbn [app fold_right]; lia. Qed.

Lemma absTotal_app xs ys : absTotal (xs ++ ys) = absTotal xs + absTotal ys.
Proof. unfold absTotal. induction xs as [|x r IH]; cbn [app fold_right]; lia. Qed.

Lemma intTotal_le_absTotal xs : Z.abs (intTotal xs) <= absTotal xs.
Proof. unfold intTotal, absTotal. induction xs as [|x r IH]; cbn [fold_right]; lia. Qed.

(** Adding up the sums of groups of whole numbers is exact while the
    absolute values sum to at most 2^53. *)
Lemma fold_groups_of_int (groups : list (list float)) : forall a,
  Forall wholeNumber (concat groups) ->
  Z.abs a + absTotal (concat groups) <= 2 ^ 53 ->
  fold_left (fun acc g => (acc + sumFromLeft g)%float) groups (of_int a)
  = of_int (a + intTotal (concat groups)).
Proof.
  induction groups as [|g r IH]; intros a W B; cbn [fold_left concat].
  - cbn. now rewrite Z.add_0_r.
  - cbn [concat] in W, B. apply Forall_app in W as [Wg Wr].
    rewrite absTotal_app in B.
    pose proof (absTotal_nonneg g). pose proof (absTotal_nonneg (concat r)).
    pose proof (intTotal_le_absTotal g).
    rewrite sumFromLeft_of_int by (assumption || lia).
    rewrite add_of_int by lia.
    rewrite IH by (assumption || lia).
    rewrite intTotal_app. f_equal. lia.
Qed.

Lemma monthTrackedTotal_groups l m ty :
  monthTrackedTotal l m ty
  = fold_left (fun acc g => (acc + sumFromLeft g)%float)
      (List.map (fun c => List.map amountOrZero (List.filter (ofMonthTypeCategory m ty c) l))
         (CATEGORIES ty))
      0%float.
Proof.
  unfold monthTrackedTotal. generalize 0%float.
  induction (CATEGORIES ty) as [|c r IH]; intros acc; [reflexivity|].
  cbn [fold_left List.map]. rewrite IH. f_equal. f_equal.
  unfold sumForMonthTypeCategory. apply sumAmounts_map.
Qed.

Lemma concat_map_map {A B C} (f : B -> C) (g : A -> list B) l :
  concat (List.map (fun c => List.map f (g c)) l) = List.map f (concat (List.map g l)).
Proof.
  induction l as [|x r IH]; [reflexivity|]. cbn. rewrite IH, List.map_app. reflexivity.
Qed.

(** For entries with declared categories whose summands are whole numbers
    with absolute values summing to at most 2^53, the tracked total of a
    month and type, which adds up the sums of the categories, is the sum
    of the amounts of the entries of that month and type. *)
Theorem monthTrackedTotal_exact (l : list Transaction) (m : string) (ty : TxType) :
  Forall (fun t => In (category t) (CATEGORIES (type t))) l ->
  Forall wholeNumber (List.map amountOrZero l) ->
  absTotal (List.map amountOrZero l) <= 2 ^ 53 ->
  monthTrackedTotal l m ty
  = of_int (intTotal (List.map amountOrZero (List.filter (ofMonthType m ty) l)))
  /\ monthTrackedTotal l m ty = sumAmounts (List.filter (ofMonthType m ty) l).
Proof.
  intros D W B.
  pose proof (Permutation_map amountOrZero (byCategory_partition l m ty D)) as P.
  pose proof (absTotal_filter (ofMonthType m ty) l) as Bf.
  pose proof (whole_filter (ofMonthType m ty) l W) as Wf.
  assert (E : monthTrackedTotal l m ty
              = of_int (intTotal (List.map amountOrZero (List.filter (ofMonthType m ty) l)))).
  { rewrite monthTrackedTotal_groups. change 0%float with (of_int 0).
    rewrite fold_groups_of_int.
    - rewrite concat_map_map, (intTotal_Permutation _ _ P). reflexivity.
    - rewrite concat_map_map. eapply Permutation_Forall; [symmetry; exact P|exact Wf].
    - rewrite concat_map_map, (absTotal_Permutation _ _ P). cbn [Z.abs]. lia. }
  split; [exact E|]. rewrite E, sumAmounts_map, sumFromLeft_of_int; [reflexivity|exact Wf|lia].
Qed.

Lemma monthTrackedTotal_exact_witness :
  let l := [incomeOf 1%float; rentOf 2%float] in
  Forall (fun t => In (category t) (CATEGORIES (type t))) l
  /\ Forall wholeNumber (List.map amountOrZero l)
  /\ absTotal (List.map amountOrZero l) <= 2 ^ 53
  /\ monthTrackedTotal l "2026-01" Expenses
     = sumAmounts (List.filter (ofMonthType "2026-01" Expenses) l).
Proof.
  intros l.
  assert (D : Forall (fun t => In (category t) (CATEGORIES (type t))) l)
    by (repeat constructor).
  assert (W : Forall wholeNumber (List.map amountOrZero l)) by (repeat constructor).
  assert (B : absTotal (List.map amountOrZero l) <= 2 ^ 53) by (vm_compute; discriminate).
  split; [exact D|]. split; [exact W|]. split; [exact B|].
  apply (proj2 (monthTrackedTotal_exact l "2026-01" Expenses D W B)).
Defined.

Lemma byMonth_partition l ty :
  Permutation
    (concat (List.map (fun m => List.filter (ofMonthType m ty) l) (allMonthsInTx l)))
    (List.filter (fun t => TxType_eqb (type t) ty) l).
Proof.
  rewrite (map_ext (fun m => List.filter (ofMonthType m ty) l)
             (fun m => List.filter
                         (fun t => TxType_eqb (type t) ty
                                   && String.eqb (monthKeyFromDate (date t)) m) l)).
  - apply (partition_covering (fun t => monthKeyFromDate (date t))
             (fun t => TxType_eqb (type t) ty) l (allMonthsInTx l)).
    + apply ascending_NoDup, Array_sort_strings_ascending, months_set_NoDup. constructor.
    + intros t Ht _. apply allMonthsInTx_In. apply Exists_exists. now exists t.
  - intros m. apply filter_ext. intros t. unfold ofMonthType. apply andb_comm.
Qed.

(** For entries with declared categories whose summands are whole numbers
    with absolute values summing to at most 2^53, the tracked totals of a
    type over the months of [allMonthsInTx] add up to the total of that
    type: the month rows and [totals] agree. *)
Theorem monthTotals_add_up (l : list Transaction) (ty : TxType) :
  Forall (fun t => In (category t) (CATEGORIES (type t))) l ->
  Forall wholeNumber (List.map amountOrZero l) ->
  absTotal (List.map amountOrZero l) <= 2 ^ 53 ->
  sumFromLeft (List.map (fun m => monthTrackedTotal l m ty) (allMonthsInTx l))
  = sumByType l ty.
Proof.
  intros D W B.
  pose proof (Permutation_map amountOrZero (byMonth_partition l ty)) as P.
  pose proof (absTotal_filter (fun t => TxType_eqb (type t) ty) l) as Bf.
  pose proof (whole_filter (fun t => TxType_eqb (type t) ty) l W) as Wf.
  unfold sumByType. rewrite sumAmounts_map, (sumFromLeft_of_int _ Wf) by lia.
  unfold sumFromLeft at 1.
  transitivity
    (fold_left (fun acc g => (acc + sumFromLeft g)%float)
       (List.map (fun m => List.map amountOrZero (List.filter (ofMonthType m ty) l))
          (allMonthsInTx l))
       (of_int 0)).
  - clear P. change (of_int 0) with 0%float. generalize 0%float.
    induction (allMonthsInTx l) as [|m r IH]; intros acc; [reflexivity|].
    cbn [fold_left List.map]. rewrite IH.
    rewrite (proj2 (monthTrackedTotal_exact l m ty D W B)), sumAmounts_map. reflexivity.
  - rewrite fold_groups_of_int.
    + rewrite concat_map_map, (intTotal_Permutation _ _ P). reflexivity.
    + rewrite concat_map_map. eapply Permutation_Forall; [symmetry; exact P|exact Wf].
    + rewrite concat_map_map, (absTotal_Permutation _ _ P). cbn [Z.abs]. lia.
Qed.

Lemma monthTotals_add_up_witness :
  let l := [incomeOf 1%float; rentOf 2%float] in
  Forall (fun t => In (category t) (CATEGORIES (type t))) l
  /\ Forall wholeNumber (List.map amountOrZero l)
  /\ absTotal (List.map amountOrZero l) <= 2 ^ 53
  /\ sumFromLeft (List.map (fun m => monthTrackedTotal l m Income) (allMonthsInTx l))
     = sumByType l Income.
Proof.
  intros l.
  assert (D : Forall (fun t => In (category t) (CATEGORIES (type t))) l)
    by (repeat constructor).
  assert (W : Forall wholeNumber (List.map amountOrZero l)) by (repeat constructor).
  assert (B : absTotal (List.map amountOrZero l) <= 2 ^ 53) by (vm_compute; discriminate).
  split; [exact D|]. split; [exact W|]. split; [exact B|].
  apply (monthTotals_add_up l Income D W B).
Defined.

(** ** The keys of the allocations *)

Lemma list_ascii_of_string_app a b :
  list_ascii_of_string (a ++ b) = (list_ascii_of_string a ++ list_ascii_of_string b)%list.
Proof. induction a as [|c a IH]; simpl; [reflexivity|now rewrite IH]. Qed.

Lemma list_ascii_of_string_inj a b :
  list_ascii_of_string a = list_ascii_of_string b -> a = b.
Proof.
  intros H. rewrite <- (string_of_list_ascii_of_string a), H.
  apply string_of_list_ascii_of_string.
Qed.

Lemma split_at_bar (a a' x x' : list ascii) :
  ~ In "|"%char a -> ~ In "|"%char a' ->
  (a ++ "|"%char :: x = a' ++ "|"%char :: x')%list -> a = a' /\ x = x'.
Proof.
  revert a'. induction a as [|c a IH]; intros [|c' a'] N N' E; cbn in E.
  - injection E as ->. now split.
  - injection E as <- _. exfalso. apply N'. now left.
  - injection E as -> _. exfalso. apply N. now left.
  - injection E as -> E. destruct (IH a') as [-> ->]; [| |exact E|now split].
    + intros I. apply N. now right.
    + intros I. apply N'. now right.
Qed.

Lemma TxType_string_noBar t : ~ In "|"%char (rev (list_ascii_of_string (TxType_string t))).
Proof. rewrite <- in_rev. destruct t; cbn; intuition discriminate. Qed.

Lemma TxType_string_inj t t' : TxType_string t = TxType_string t' -> t = t'.
Proof. destruct t, t'; intros H; try reflexivity; discriminate. Qed.

Lemma budgetKey_chars m t c :
  rev (list_ascii_of_string (budgetKey m t c))
  = (rev (list_ascii_of_string c)
     ++ "|"%char :: rev (list_ascii_of_string (TxType_string t))
     ++ "|"%char :: rev (list_ascii_of_string m))%list.
Proof.
  unfold budgetKey. rewrite !list_ascii_of_string_app. cbn [list_ascii_of_string].
  rewrite !rev_app_distr. cbn [rev app]. rewrite <- !app_assoc. reflexivity.
Qed.

Lemma declared_noBar t c : In c (CATEGORIES t) -> noBar c.
Proof.
  unfold noBar. destruct t; cbn; intros H;
    repeat (destruct H as [<-|H]; [cbn; intuition discriminate|]); destruct H.
Qed.

Lemma budgetKey_inj m t c m' t' c' :
  noBar c -> noBar c' -> budgetKey m t c = budgetKey m' t' c' ->
  m = m' /\ t = t' /\ c = c'.
Proof.
  unfold noBar. intros N N' E.
  apply (f_equal (fun k => rev (list_ascii_of_string k))) in E.
  rewrite !budgetKey_chars in E.
  apply split_at_bar in E as [Ec E]; [|now rewrite <- in_rev..].
  apply split_at_bar in E as [Et Em]; [|apply TxType_string_noBar..].
  apply (f_equal (@rev _)) in Ec, Et, Em. rewrite !rev_involutive in Ec, Et, Em.
  apply list_ascii_of_string_inj in Ec, Et, Em.
  split; [exact Em|]. split; [apply TxType_string_inj, Et|exact Ec].
Qed.

(** Two allocations share a key only if they are for the same month, type
    and category, whatever the month keys are, as long as the categories
    hold no [|]; the declared categories hold none. *)
Theorem budgetKey_injective (m m' : string) (t t' : TxType) (c c' : string) :
  In c (CATEGORIES t) -> In c' (CATEGORIES t') ->
  budgetKey m t c = budgetKey m' t' c' ->
  m = m' /\ t = t' /\ c = c'.
Proof.
  intros D D'. apply budgetKey_inj; eapply declared_noBar; eassumption.
Qed.

Lemma budgetKey_injective_witness :
  In "Rent" (CATEGORIES Expenses) /\ In "Rent" (CATEGORIES Expenses)
  /\ budgetKey "2026-01" Expenses "Rent" = budgetKey "2026-01" Expenses "Rent"
  /\ ("2026-01" = "2026-01" /\ Expenses = Expenses /\ "Rent" = "Rent").
Proof.
  assert (D : In "Rent" (CATEGORIES Expenses)) by now left.
  split; [exact D|]. split; [exact D|]. split; [reflexivity|].
  apply (budgetKey_injective "2026-01" "2026-01" Expenses Expenses "Rent" "Rent" D D).
  reflexivity.
Defined.

(** ** Reading and writing allocations *)

Lemma getBudget_setBudget_other b m t c v m' t' c' :
  In c (CATEGORIES t) -> In c' (CATEGORIES t') ->
  m <> m' \/ t <> t' \/ c <> c' ->
  getBudget (setBudget b m t c v) m' t' c' = getBudget b m' t' c'.
Proof.
  intros D D' N. unfold getBudget, setBudget.
  rewrite lookup_insert_ne; [reflexivity|].
  intros E. apply budgetKey_inj in E as (-> & -> & ->);
    [|eapply declared_noBar; eassumption..].
  destruct N as [N|[N|N]]; now apply N.
Qed.

(** An allocation written is the one read back, with a non-finite value
    read as 0; the last write to a key wins; and a write for a declared
    category leaves the allocation of every other month, type or declared
    category as it was. *)
Theorem setBudget_read_back (b : BudgetStore) (m : string) (t : TxType) (c : string)
    (v : float) :
  getBudget (setBudget b m t c v) m t c = (if Number_isFinite v then v else 0%float)
  /\ (forall w, setBudget (setBudget b m t c w) m t c v = setBudget b m t c v)
  /\ (forall m' t' c',
        In c (CATEGORIES t) -> In c' (CATEGORIES t') ->
        m <> m' \/ t <> t' \/ c <> c' ->
        getBudget (setBudget b m t c v) m' t' c' = getBudget b m' t' c').
Proof.
  split; [|split].
  - unfold getBudget, setBudget. now rewrite lookup_insert_eq.
  - intros w. unfold setBudget. apply insert_insert_eq.
  - intros m' t' c'. apply getBudget_setBudget_other.
Qed.

Lemma fold_left_ext_in {A B} (f g : A -> B -> A) (l : list B) :
  (forall a x, In x l -> f a x = g a x) ->
  forall a, fold_left f l a = fold_left g l a.
Proof.
  induction l as [|x r IH]; intros H a; [reflexivity|]. cbn.
  rewrite (H a x) by now left. apply IH. intros a' y Hy. apply H. now right.
Qed.

Lemma monthBudgetTotal_empty m t : monthBudgetTotal ∅ m t = 0%float.
Proof.
  unfold monthBudgetTotal, getBudget.
  destruct t; cbn [CATEGORIES fold_left]; rewrite ?lookup_empty; reflexivity.
Qed.

(** The budget total of a month and type reads only the allocations of
    that month and type: a write for a declared category of another month
    or type leaves it as it was. *)
Theorem monthBudgetTotal_frame (b : BudgetStore) (m m' : string) (t t' : TxType)
    (c : string) (v : float) :
  In c (CATEGORIES t) -> m <> m' \/ t <> t' ->
  monthBudgetTotal (setBudget b m t c v) m' t' = monthBudgetTotal b m' t'.
Proof.
  intros D N.
  unfold monthBudgetTotal. apply fold_left_ext_in. intros a c' D'. f_equal.
  apply getBudget_setBudget_other; [exact D|exact D'|].
  destruct N as [N|N]; [now left|now right; left].
Qed.

Lemma monthBudgetTotal_frame_witness :
  In "Rent" (CATEGORIES Expenses) /\ ("2026-01" <> "2026-02" \/ Expenses <> Expenses)
  /\ monthBudgetTotal (setBudget ∅ "2026-01" Expenses "Rent" 5) "2026-02" Expenses
     = monthBudgetTotal ∅ "2026-02" Expenses.
Proof.
  assert (D : In "Rent" (CATEGORIES Expenses)) by now left.
  assert (N : "2026-01" <> "2026-02" \/ Expenses <> Expenses) by (left; discriminate).
  split; [exact D|]. split; [exact N|].
  apply (monthBudgetTotal_frame ∅ "2026-01" "2026-02" Expenses Expenses "Rent" 5 D N).
Defined.

(** Without any allocation every budget total is 0, and an edit in the
    Plan tab changes the budgets only: entries, form and selected month
    stay, so every tracked total stays, and the budget totals of the other
    types stay as well. *)
Theorem editBudget_changes_one_header (t : TxType) (cat text : string) (s : State) :
  In cat (CATEGORIES t) ->
  transactions (editBudget t cat text s) = transactions s
  /\ selectedMonth (editBudget t cat text s) = selectedMonth s
  /\ List.map plan_type (planHeaders (editBudget t cat text s)) = TxTypes
  /\ List.map trackedTotal (planHeaders (editBudget t cat text s))
     = List.map trackedTotal (planHeaders s)
  /\ (forall h h', In h (planHeaders s) -> In h' (planHeaders (editBudget t cat text s)) ->
        plan_type h = plan_type h' -> plan_type h <> t -> h' = h)
  /\ (forall m ty, monthBudgetTotal ∅ m ty = 0%float).
Proof.
  intros D. split; [reflexivity|]. split; [reflexivity|]. split; [reflexivity|].
  split; [reflexivity|]. split; [|apply monthBudgetTotal_empty].
  intros h h' Hh Hh' E N. unfold planHeaders in Hh, Hh'.
  apply in_map_iff in Hh as (k & <- & _). apply in_map_iff in Hh' as (k' & <- & _).
  cbn [plan_type] in E, N. subst k'.
  cbn [editBudget setBudgetState budgets selectedMonth transactions].
  assert (E : monthBudgetTotal (setBudget (budgets s) (selectedMonth s) t cat (Number text))
                (selectedMonth s) k
              = monthBudgetTotal (budgets s) (selectedMonth s) k).
  { unfold monthBudgetTotal. apply fold_left_ext_in. intros a c' D'. f_equal.
    apply getBudget_setBudget_other; [exact D|exact D'|]. right. left. congruence. }
  rewrite E. reflexivity.
Qed.

Lemma editBudget_changes_one_header_witness :
  In "Rent" (CATEGORIES Expenses)
  /\ transactions (editBudget Expenses "Rent" "100" form_empty_amount)
     = transactions form_empty_amount.
Proof.
  assert (D : In "Rent" (CATEGORIES Expenses)) by now left.
  split; [exact D|].
  apply (proj1 (editBudget_changes_one_header Expenses "Rent" "100" form_empty_amount D)).
Defined.

(** ** The figures of a month *)

Lemma filter_filter_impl {A} (f g : A -> bool) l :
  (forall x, f x = true -> g x = true) ->
  List.filter f (List.filter g l) = List.filter f l.
Proof.
  intros H. induction l as [|x r IH]; [reflexivity|]. cbn [List.filter].
  destruct (g x) eqn:G; cbn [List.filter].
  - now rewrite IH.
  - destruct (f x) eqn:F; [|exact IH]. rewrite (H x F) in G. discriminate.
Qed.

Lemma sumFor_of_month l m ty c :
  sumForMonthTypeCategory
    (List.filter (fun t => String.eqb (monthKeyFromDate (date t)) m) l) m ty c
  = sumForMonthTypeCategory l m ty c.
Proof.
  unfold sumForMonthTypeCategory. f_equal. apply filter_filter_impl.
  intros t H. apply andb_true_iff in H as [H _]. apply andb_true_iff in H as [H _].
  exact H.
Qed.

Lemma monthTrackedTotal_ext l l' m ty :
  (forall c, sumForMonthTypeCategory l m ty c = sumForMonthTypeCategory l' m ty c) ->
  monthTrackedTotal l m ty = monthTrackedTotal l' m ty.
Proof.
  intros H. unfold monthTrackedTotal. apply fold_left_ext_in.
  intros a c _. now rewrite H.
Qed.

Lemma monthRow_ext l l' m :
  (forall ty c, sumForMonthTypeCategory l m ty c = sumForMonthTypeCategory l' m ty c) ->
  monthRow l m = monthRow l' m.
Proof.
  intros H. unfold monthRow.
  rewrite !(monthTrackedTotal_ext l l' m) by (intros c; apply H). reflexivity.
Qed.

Lemma topExpenses_ext l l' m :
  (forall ty c, sumForMonthTypeCategory l m ty c = sumForMonthTypeCategory l' m ty c) ->
  topExpenses l m = topExpenses l' m.
Proof.
  intros H. unfold topExpenses. do 3 f_equal.
  apply map_ext. intros c. now rewrite H.
Qed.

(** The figures shown for a month depend on the entries of that month
    only: every month/type/category sum, every tracked total, the month
    row and the top expenses are those of the entries whose date starts
    with the month key. *)
Theorem month_figures_read_month_only (l : list Transaction) (m : string) :
  let ofMonth := List.filter (fun t => String.eqb (monthKeyFromDate (date t)) m) l in
  (forall ty c, sumForMonthTypeCategory l m ty c = sumForMonthTypeCategory ofMonth m ty c)
  /\ (forall ty, monthTrackedTotal l m ty = monthTrackedTotal ofMonth m ty)
  /\ monthRow l m = monthRow ofMonth m
  /\ topExpenses l m = topExpenses ofMonth m.
Proof.
  intros ofMonth.
  assert (H : forall ty c,
            sumForMonthTypeCategory l m ty c = sumForMonthTypeCategory ofMonth m ty c)
    by (intros ty c; symmetry; apply sumFor_of_month).
  split; [exact H|]. split; [|split].
  - intros ty. apply monthTrackedTotal_ext. intros c. apply H.
  - apply monthRow_ext, H.
  - apply topExpenses_ext, H.
Qed.

Lemma filter_delete_other_month (l : list Transaction) id0 m ty c :
  (forall t, In t l -> id t = id0 -> monthKeyFromDate (date t) <> m) ->
  List.filter (ofMonthTypeCategory m ty c)
    (List.filter (fun t => negb (String.eqb (id t) id0)) l)
  = List.filter (ofMonthTypeCategory m ty c) l.
Proof.
  intros H. induction l as [|t r IH]; [reflexivity|]. cbn [List.filter].
  destruct (String.eqb (id t) id0) eqn:E; cbn [negb List.filter].
  - apply String.eqb_eq in E. pose proof (H t (or_introl eq_refl) E) as M.
    apply String.eqb_neq in M. unfold ofMonthTypeCategory at 2. rewrite M. cbn [andb].
    apply IH. intros u Hu. apply H. now right.
  - rewrite IH; [reflexivity|]. intros u Hu. apply H. now right.
Qed.

(** Adding an entry dated in one month, or deleting entries of other
    months only, changes neither the row nor the top expenses of another
    month. *)
Theorem other_months_untouched (fresh : string) (s : State) (m : string) :
  monthKeyFromDate (form_date s) <> m ->
  monthRow (transactions (addTransaction fresh s)) m = monthRow (transactions s) m
  /\ topExpenses (transactions (addTransaction fresh s)) m = topExpenses (transactions s) m
  /\ (forall id0,
        (forall t, In t (transactions s) -> id t = id0 -> monthKeyFromDate (date t) <> m) ->
        monthRow (transactions (deleteTransaction id0 s)) m = monthRow (transactions s) m
        /\ topExpenses (transactions (deleteTransaction id0 s)) m
           = topExpenses (transactions s) m).
Proof.
  intros N.
  assert (A : forall ty c,
            sumForMonthTypeCategory (transactions (addTransaction fresh s)) m ty c
            = sumForMonthTypeCategory (transactions s) m ty c).
  { intros ty c. unfold addTransaction. destruct (_ || _); [reflexivity|].
    cbn [transactions]. unfold sumForMonthTypeCategory. cbn [List.filter date].
    apply String.eqb_neq in N. rewrite N. reflexivity. }
  split; [apply monthRow_ext, A|]. split; [apply topExpenses_ext, A|].
  intros id0 H.
  assert (B : forall ty c,
            sumForMonthTypeCategory (transactions (deleteTransaction id0 s)) m ty c
            = sumForMonthTypeCategory (transactions s) m ty c).
  { intros ty c. cbn [deleteTransaction withTransactions transactions].
    unfold sumForMonthTypeCategory. f_equal. apply filter_delete_other_month, H. }
  split; [apply monthRow_ext, B|apply topExpenses_ext, B].
Qed.

Lemma other_months_untouched_witness :
  monthKeyFromDate (form_date form_empty_amount) <> "2026-02"
  /\ monthRow (transactions (addTransaction "b" form_empty_amount)) "2026-02"
     = monthRow (transactions form_empty_amount) "2026-02".
Proof.
  assert (N : monthKeyFromDate (form_date form_empty_amount) <> "2026-02") by discriminate.
  split; [exact N|].
  apply (proj1 (other_months_untouched "b" form_empty_amount "2026-02" N)).
Defined.

(** ** The budgets in storage *)

Lemma get_prop_set_prop k v ps k' :
  get_prop (set_prop k v ps) k' = if String.eqb k k' then v else get_prop ps k'.
Proof.
  induction ps as [|[k0 v0] r IH]; cbn [set_prop get_prop]; [reflexivity|].
  destruct (String.eqb k0 k) eqn:E; cbn [get_prop].
  - apply String.eqb_eq in E. subst k0. destruct (String.eqb k k'); reflexivity.
  - rewrite IH. destruct (String.eqb k0 k') eqn:E'; [|reflexivity].
    apply String.eqb_eq in E'. subst k0. now rewrite String.eqb_sym, E.
Qed.

(** The members of the budget object, printed. *)
Lemma stringify_allocations (ps : list (string * float)) :
  JSON_stringify (JObj (List.map (fun kv => (fst kv, JNum (snd kv))) ps))
  = Some (J_object
            (List.map
               (fun kv => (fst kv,
                           if Number_isFinite (snd kv)
                           then J_number (printed_number (snd kv)) else J_null))
               ps)).
Proof.
  cbn [JSON_stringify]. do 2 f_equal.
  induction ps as [|[k v] r IH]; [reflexivity|].
  cbn [List.map fst snd]. cbn [JSON_stringify]. now rewrite IH.
Qed.

(** Reading a property of a parsed object whose member names are all
    different. *)
Lemma parse_members_get (ms : list (string * json)) k :
  NoDup (List.map fst ms) ->
  forall acc,
    get_prop
      ((fix props (ms : list (string * json)) (acc : list (string * jsval))
          : list (string * jsval) :=
          match ms with
          | [] => acc
          | (k, e) :: r => props r (set_prop k (JSON_parse e) acc)
          end) ms acc) k
    = match List.find (fun kv => String.eqb (fst kv) k) ms with
      | Some kv => JSON_parse (snd kv)
      | None => get_prop acc k
      end.
Proof.
  intros N.
  induction ms as [|[k0 e0] r IH]; intros acc; [reflexivity|].
  cbn [List.map fst] in N. apply NoDup_cons_iff in N as [N0 Nr].
  rewrite (IH Nr). cbn [List.find fst snd].
  destruct (List.find (fun kv => String.eqb (fst kv) k) r) as [[k1 e1]|] eqn:F.
  - apply find_some in F as [F1 F2]. cbn [fst] in F2. apply String.eqb_eq in F2. subst k1.
    destruct (String.eqb k0 k) eqn:E; [|reflexivity].
    apply String.eqb_eq in E. subst k0. exfalso. apply N0.
    change k with (fst (k, e1)). now apply in_map.
  - rewrite get_prop_set_prop. destruct (String.eqb k0 k); reflexivity.
Qed.

Lemma fmap_fst_map {A B} (l : list (A * B)) : l.*1 = List.map fst l.
Proof. induction l as [|x r IH]; [reflexivity|]. cbn. now rewrite IH. Qed.

Lemma find_allocation (b : BudgetStore) k :
  List.find (fun kv : string * float => String.eqb (fst kv) k) (map_to_list b)
  = match b !! k with Some v => Some (k, v) | None => None end.
Proof.
  destruct (b !! k) as [v|] eqn:L.
  - destruct (List.find _ (map_to_list b)) as [[k1 v1]|] eqn:F.
    + apply find_some in F as [F1 F2]. cbn [fst] in F2. apply String.eqb_eq in F2. subst k1.
      apply list_elem_of_In, elem_of_map_to_list in F1. congruence.
    + apply elem_of_map_to_list, list_elem_of_In in L.
      pose proof (find_none _ _ F _ L) as X. cbn [fst] in X.
      rewrite String.eqb_refl in X. discriminate.
  - destruct (List.find _ (map_to_list b)) as [[k1 v1]|] eqn:F; [|reflexivity].
    apply find_some in F as [F1 F2]. cbn [fst] in F2. apply String.eqb_eq in F2. subst k1.
    apply list_elem_of_In, elem_of_map_to_list in F1. congruence.
Qed.

Lemma find_map_snd {A B} (g : A -> B) (k : string) (l : list (string * A)) :
  List.find (fun kv => String.eqb (fst kv) k) (List.map (fun kv => (fst kv, g (snd kv))) l)
  = option_map (fun kv => (fst kv, g (snd kv)))
      (List.find (fun kv => String.eqb (fst kv) k) l).
Proof.
  induction l as [|[k0 v0] r IH]; [reflexivity|]. cbn [List.map List.find fst snd].
  destruct (String.eqb k0 k); [reflexivity|exact IH].
Qed.

(** The budgets written to storage and read back give, for every month,
    type and category, the allocation that was stored, as its printed
    number; an allocation that is not finite reads back as 0.  Without a
    stored text, or with one that is no JSON, every allocation reads 0;
    with the stored text [null], which [safeParseJSON] accepts, every read
    fails. *)
Theorem budgets_survive_storage (b : BudgetStore) (m : string) (t : TxType)
    (c : string) :
  getBudget_loaded (loadBudgets (Some (storeBudgets b))) m t c
  = Some (JNum (if Number_isFinite (getBudget b m t c)
                then printed_number (getBudget b m t c) else 0%float))
  /\ (allFinite b ->
      exists v, getBudget_loaded (loadBudgets (Some (storeBudgets b))) m t c
                = Some (JNum v)
                /\ (v =? getBudget b m t c)%float = true)
  /\ getBudget_loaded (loadBudgets None) m t c = Some (JNum 0%float)
  /\ getBudget_loaded (loadBudgets (Some EmptyText)) m t c = Some (JNum 0%float)
  /\ getBudget_loaded (loadBudgets (Some NotJSON)) m t c = Some (JNum 0%float)
  /\ getBudget_loaded (loadBudgets (Some (JSONText J_null))) m t c = None.
Proof.
  assert (E : getBudget_loaded (loadBudgets (Some (storeBudgets b))) m t c
              = Some (JNum (if Number_isFinite (getBudget b m t c)
                            then printed_number (getBudget b m t c) else 0%float))).
  { unfold storeBudgets, BudgetStore_to_js. rewrite stringify_allocations.
    unfold loadBudgets, safeParseJSON, getBudget_loaded. cbn [JSON_parse].
    assert (N : NoDup (List.map fst
                         (List.map
                            (fun kv : string * float =>
                               (fst kv,
                                if Number_isFinite (snd kv)
                                then J_number (printed_number (snd kv)) else J_null))
                            (map_to_list b)))).
    { rewrite map_map. cbn [fst]. rewrite <- fmap_fst_map.
      apply NoDup_ListNoDup, NoDup_fst_map_to_list. }
    rewrite (parse_members_get _ (budgetKey m t c) N []).
    rewrite (find_map_snd
               (fun v : float =>
                  if Number_isFinite v then J_number (printed_number v) else J_null)),
      find_allocation.
    unfold getBudget.
    destruct (b !! budgetKey m t c) as [v|]; cbn [option_map snd get_prop].
    - destruct (Number_isFinite v); reflexivity.
    - reflexivity. }
  split; [exact E|]. split; [|repeat split].
  intros F. eexists. split; [exact E|].
  unfold Number_isFinite. rewrite (getBudget_finite b m t c F). apply printed_number_eqb.
  apply getBudget_finite, F.
Qed.

(** ** The default date and the first selected month *)

Lemma append_cons x (a b : string) : (String x a ++ b = String x (a ++ b))%string.
Proof. reflexivity. Qed.

Lemma string_length_app a b :
  String.length (a ++ b) = (String.length a + String.length b)%nat.
Proof.
  induction a as [|x a IH]; [reflexivity|].
  rewrite append_cons. cbn [String.length Nat.add]. now rewrite IH.
Qed.

Lemma string_app_assoc (a b c : string) : ((a ++ b) ++ c = a ++ (b ++ c))%string.
Proof.
  induction a as [|x a IH]; [reflexivity|]. rewrite !append_cons. now rewrite IH.
Qed.

Lemma substring_prefix a b : substring 0 (String.length a) (a ++ b) = a.
Proof.
  induction a as [|x a IH].
  - cbn [String.length]. destruct b; reflexivity.
  - rewrite append_cons. cbn [String.length substring]. now rewrite IH.
Qed.

Lemma year_digits y :
  1000 <= y <= 9999 -> String.length (String_of_integer y) = 4%nat.
Proof.
  intros H.
  assert (A : forallb
                (fun n => (String.length (String_of_integer (1000 + Z.of_nat n)) =? 4)%nat)
                (seq 0 (Z.to_nat 9000)) = true) by (vm_compute; reflexivity).
  rewrite forallb_forall in A. specialize (A (Z.to_nat (y - 1000))).
  rewrite Z2Nat.id in A by lia. replace (1000 + (y - 1000)) with y in A by lia.
  apply Nat.eqb_eq, A, in_seq. lia.
Qed.

Lemma two_digits k :
  0 <= k <= 99 -> String.length (padStart2 (String_of_integer k)) = 2%nat.
Proof.
  intros H.
  assert (A : forallb
                (fun n => (String.length (padStart2 (String_of_integer (Z.of_nat n))) =? 2)%nat)
                (seq 0 100) = true) by (vm_compute; reflexivity).
  rewrite forallb_forall in A. specialize (A (Z.to_nat k)).
  rewrite Z2Nat.id in A by lia. apply Nat.eqb_eq, A, in_seq. lia.
Qed.

Lemma syncSelectedMonth_keeps_7 s :
  String.length (selectedMonth s) = 7%nat -> syncSelectedMonth s = s.
Proof.
  intros L. unfold syncSelectedMonth.
  destruct (List.length _ =? 0)%nat; [reflexivity|].
  rewrite L. destruct (selectedMonth s); [discriminate|reflexivity].
Qed.

(** For a four-digit year, the default date has 10 code units, the first
    selected month is the month key of the default date and has 7 code
    units, so the effect that follows the entries never replaces it. *)
Theorem defaultDate_month (today : Today) :
  1000 <= fullYear today <= 9999 ->
  0 <= monthIndex today <= 11 ->
  1 <= dayOfMonth today <= 31 ->
  String.length (defaultDate today) = 10%nat
  /\ monthKeyFromDate (defaultDate today) = initialSelectedMonth today
  /\ String.length (initialSelectedMonth today) = 7%nat
  /\ (forall s, selectedMonth s = initialSelectedMonth today -> syncSelectedMonth s = s).
Proof.
  intros Hy Hm Hd.
  pose proof (year_digits (fullYear today) Hy) as Ly.
  assert (Lm : String.length (mm today) = 2%nat) by (apply two_digits; lia).
  assert (Ld : String.length (dd today) = 2%nat) by (apply two_digits; lia).
  fold (yyyy today) in Ly.
  assert (L7 : String.length (initialSelectedMonth today) = 7%nat).
  { unfold initialSelectedMonth. rewrite !string_length_app, Ly, Lm. reflexivity. }
  split; [|split; [|split]].
  - unfold defaultDate. rewrite !string_length_app, Ly, Lm, Ld. reflexivity.
  - unfold monthKeyFromDate, slice0. rewrite <- L7 at 1.
    replace (defaultDate today)
      with (initialSelectedMonth today ++ "-" ++ dd today)%string.
    + apply substring_prefix.
    + unfold defaultDate, initialSelectedMonth.
      rewrite !string_app_assoc. reflexivity.
  - exact L7.
  - intros s E. apply syncSelectedMonth_keeps_7. now rewrite E.
Qed.

Lemma defaultDate_month_witness :
  let today := {| fullYear := 2026; monthIndex := 10; dayOfMonth := 2 |} in
  1000 <= fullYear today <= 9999
  /\ 0 <= monthIndex today <= 11
  /\ 1 <= dayOfMonth today <= 31
  /\ monthKeyFromDate (defaultDate today) = initialSelectedMonth today.
Proof.
  intros today.
  assert (Hy : 1000 <= fullYear today <= 9999) by (cbn; lia).
  assert (Hm : 0 <= monthIndex today <= 11) by (cbn; lia).
  assert (Hd : 1 <= dayOfMonth today <= 31) by (cbn; lia).
  split; [exact Hy|]. split; [exact Hm|]. split; [exact Hd|].
  apply (proj1 (proj2 (defaultDate_month today Hy Hm Hd))).
Defined.

(** ** The bar chart: ticks and bar heights *)

Lemma shr_fexp_nonneg m e l :
  0 <= m -> 0 <= shr_m (fst (shr_fexp prec emax m e l)).
Proof.
  intros Hm. unfold shr_fexp, shr.
  destruct (fexp prec emax (Zdigits2 m + e) - e) as [|p|p]; cbn [fst];
    rewrite ?shr_record_of_loc_m; try lia.
  rewrite iter_shr_1 by (rewrite shr_record_of_loc_m; lia).
  rewrite shr_record_of_loc_m. apply Z.div_pos; [lia|].
  apply Z.pow_pos_nonneg; lia.
Qed.

Lemma round_nearest_even_nonneg m l : 0 <= m -> 0 <= round_nearest_even m l.
Proof.
  intros Hm. destruct l as [|[]]; cbn; try lia.
  destruct (Z.even m); lia.
Qed.

(** Rounding a non-negative mantissa never gives NaN. *)
Lemma binary_round_aux_not_nan s m e l :
  0 <= m -> SFis_nan (binary_round_aux prec emax s m e l) = false.
Proof.
  intros Hm. unfold binary_round_aux.
  pose proof (shr_fexp_nonneg m e l Hm) as H1.
  destruct (shr_fexp prec emax m e l) as [mrs' e']. cbn [fst] in H1.
  pose proof (round_nearest_even_nonneg (shr_m mrs') (loc_of_shr_record mrs') H1) as H2.
  pose proof (shr_fexp_nonneg _ e' loc_Exact H2) as H3.
  destruct (shr_fexp prec emax (round_nearest_even (shr_m mrs') (loc_of_shr_record mrs'))
              e' loc_Exact) as [mrs'' e'']. cbn [fst] in H3.
  destruct (shr_m mrs'') as [|r|r]; try lia; [reflexivity|].
  destruct (e'' <=? emax - prec); reflexivity.
Qed.

(** A product with a finite factor that is not zero is NaN only if the
    other factor is. *)
Lemma mul_not_nan a y :
  is_nan a = false -> is_finite y = true -> is_zero y = false ->
  is_nan (a * y)%float = false /\ is_nan (y * a)%float = false.
Proof.
  intros Na Fy Zy.
  assert (Ey : exists s m e, Prim2SF y = S754_finite s m e).
  { rewrite is_finite_spec in Fy.
    destruct (Prim2SF y) as [s|s| |s m e] eqn:E; try discriminate; [|now eauto].
    exfalso. unfold is_zero in Zy. rewrite FloatAxioms.eqb_spec, E in Zy.
    change (Prim2SF 0) with (S754_zero false) in Zy. discriminate. }
  destruct Ey as (sy & my & ey & Ey).
  rewrite !is_nan_spec, !mul_spec, Ey. rewrite is_nan_spec in Na.
  destruct (Prim2SF a) as [sa|sa| |sa ma ea]; try discriminate;
    cbn [SF64mul SFmul SFis_nan]; split; try reflexivity;
    apply binary_round_aux_not_nan; lia.
Qed.

(** A quotient by a finite divisor that is not zero is NaN only if the
    dividend is. *)
Lemma div_not_nan a y :
  is_nan a = false -> is_finite y = true -> is_zero y = false ->
  is_nan (a / y)%float = false.
Proof.
  intros Na Fy Zy.
  assert (Ey : exists s m e, Prim2SF y = S754_finite s m e).
  { rewrite is_finite_spec in Fy.
    destruct (Prim2SF y) as [s|s| |s m e] eqn:E; try discriminate; [|now eauto].
    exfalso. unfold is_zero in Zy. rewrite FloatAxioms.eqb_spec, E in Zy.
    change (Prim2SF 0) with (S754_zero false) in Zy. discriminate. }
  destruct Ey as (sy & my & ey & Ey).
  rewrite !is_nan_spec, !div_spec, Ey. rewrite is_nan_spec in Na.
  destruct (Prim2SF a) as [sa|sa| |sa ma ea]; try discriminate;
    cbn [SF64div SFdiv SFis_nan]; try reflexivity.
  unfold SFdiv_core_binary.
  set (e' := Z.min _ _). set (m' := match _ with Z0 => _ | Zpos _ => _ | Zneg _ => _ end).
  assert (Hm' : 0 <= m').
  { unfold m'. destruct (ea - ey - e') as [|p|p]; try lia.
    apply Z.shiftl_nonneg. lia. }
  pose proof (Z.div_pos m' (Zpos my) Hm' ltac:(lia)) as Hq.
  unfold Z.div in Hq. destruct (Z.div_eucl m' (Zpos my)) as [q r]. cbn [fst] in Hq.
  apply binary_round_aux_not_nan, Hq.
Qed.

(** The scale of the bar chart is a finite number that is at least 1. *)
Lemma BarChart_max_scale series :
  is_finite (BarChart_max series) = true
  /\ is_zero (BarChart_max series) = false
  /\ exists m e, Prim2SF (BarChart_max series) = S754_finite false m e.
Proof.
  assert (E : BarChart_max series = Math_max_from 1 (barValues series)) by reflexivity.
  rewrite E. clear E.
  pose proof (barValues_finite series) as F.
  assert (NN : Forall (fun v => is_nan v = false) (barValues series)).
  { eapply Forall_impl; [|exact F]. intros v. apply is_finite_not_nan. }
  destruct (Math_max_from_spec (barValues series) 1%float eq_refl NN) as (R1 & R2 & _ & R4).
  set (x := Math_max_from 1 (barValues series)) in *.
  assert (Fx : is_finite x = true).
  { destruct R4 as [->|R4]; [reflexivity|]. rewrite Forall_forall in F. apply F, R4. }
  apply leb_rank in R2; [|reflexivity|exact R1].
  change (frank 1%float) with (1, -52, 4503599627370496) in R2.
  unfold frank in R2. rewrite is_finite_spec in Fx.
  assert (P : exists m e, Prim2SF x = S754_finite false m e).
  { destruct (Prim2SF x) as [s|s| |[|] m e] eqn:Ex; try discriminate;
      [exfalso; apply R2; cbn; lia|exfalso; apply R2; cbn; lia|now eauto]. }
  split; [rewrite is_finite_spec; exact Fx|]. split; [|exact P].
  destruct P as (m & e & P). unfold is_zero. rewrite FloatAxioms.eqb_spec, P. reflexivity.
Qed.

Lemma SFint_not_nan n : SFis_nan (SFint n) = false.
Proof.
  pose proof (binary_normalize_sign n 0 ltac:(lia)) as H. fold (SFint n) in H.
  destruct (SFint n); try reflexivity. destruct H.
Qed.

(** [Math.round] of a number is a number. *)
Lemma Math_round_not_nan x : is_nan x = false -> is_nan (Math_round x) = false.
Proof.
  intros N. unfold Math_round.
  pose proof (Prim2SF_valid x) as V.
  destruct (Prim2SF x) as [s|s| |s m e] eqn:E; try exact N.
  destruct (0 <=? e) eqn:He; [exact N|]. apply Z.leb_gt in He.
  set (n := Z.shiftr _ _).
  destruct (n =? 0); [destruct s; reflexivity|].
  assert (B : Z.abs n <= 2 ^ 53).
  { apply valid_finite in V as (_ & Hd & _).
    pose proof (digits2_pos_bounds m) as [_ Hm].
    assert (Hm' : Zpos m < 2 ^ 53).
    { eapply Z.lt_le_trans; [exact Hm|]. apply Z.pow_le_mono_r; lia. }
    unfold n. rewrite Z.shiftr_div_pow2 by lia.
    replace (1 - e) with (Z.succ (- e)) by lia. rewrite Z.pow_succ_r by lia.
    assert (HP : 2 <= 2 ^ (- e)).
    { change 2 with (2 ^ 1) at 1. apply Z.pow_le_mono_r; lia. }
    remember (2 ^ (- e)) as P eqn:EP. clear EP.
    change (2 ^ 53) with 9007199254740992 in *.
    assert (U : (2 * cond_Zopp s (Zpos m) + P) / (2 * P) <= 9007199254740992).
    { apply Z.div_le_upper_bound; [lia|]. destruct s; cbn [cond_Zopp]; lia. }
    assert (L : - 9007199254740992 <= (2 * cond_Zopp s (Zpos m) + P) / (2 * P)).
    { apply Z.div_le_lower_bound; [lia|]. destruct s; cbn [cond_Zopp]; lia. }
    lia. }
  rewrite is_nan_spec, (Prim2SF_of_int n B). apply SFint_not_nan.
Qed.

Lemma steps_minus i :
  In i [0; 1; 2; 3; 4]%float -> is_nan (steps - i)%float = false.
Proof.
  cbn [In]. intros [<-|[<-|[<-|[<-|[<-|[]]]]]]; reflexivity.
Qed.

(** The bar chart has five ticks, none of them NaN, and the last one is
    0; at the scale 1 of a chart without positive values the ticks are
    1, 1, 1, 0 and 0. *)
Theorem BarChart_ticks_numbers (series : list (list float)) :
  List.length (BarChart_ticks series) = 5%nat
  /\ Forall (fun tick => is_nan tick = false) (BarChart_ticks series)
  /\ nth 4 (BarChart_ticks series) 1%float = 0%float
  /\ (Forall (fun v => is_zero v = true) (List.concat series) ->
      BarChart_ticks series = [1; 1; 1; 0; 0]%float).
Proof.
  destruct (BarChart_max_scale series) as (F & Z & m & e & P).
  split; [reflexivity|]. split; [|split].
  - unfold BarChart_ticks. apply Forall_forall. intros tick Ht.
    apply in_map_iff in Ht as (i & <- & Hi).
    apply Math_round_not_nan, div_not_nan; [|reflexivity|reflexivity].
    apply (mul_not_nan (steps - i) (BarChart_max series));
      [apply steps_minus, Hi|exact F|exact Z].
  - unfold BarChart_ticks. cbn [List.map nth].
    change (steps - 4)%float with 0%float.
    assert (E : (BarChart_max series * 0)%float = 0%float).
    { apply Prim2SF_inj. rewrite mul_spec, P. reflexivity. }
    rewrite E. reflexivity.
  - intros Hz. unfold BarChart_ticks.
    assert (E : BarChart_max series = 1%float).
    { change (BarChart_max series) with (Math_max_from 1 (barValues series)).
      apply Math_max_from_one. unfold barValues.
      apply Forall_forall. intros w Hw.
      apply in_map_iff in Hw as (v & <- & Hv).
      rewrite Forall_forall in Hz. specialize (Hz v Hv).
      apply zero_not_above_one. destruct (Number_isFinite v); [exact Hz|reflexivity]. }
    rewrite E. reflexivity.
Qed.

(** The height of a bar is never NaN, and it is 0 where the series has no
    value, a value that is not finite, or 0. *)
Theorem barHeight_number (series : list (list float)) (s : list float) (i : nat) :
  is_nan (barHeight series s i) = false
  /\ (nth_error s i = None -> barHeight series s i = 0%float)
  /\ (forall x, nth_error s i = Some x -> Number_isFinite x = false ->
        barHeight series s i = 0%float)
  /\ (nth_error s i = Some 0%float -> barHeight series s i = 0%float).
Proof.
  destruct (BarChart_max_scale series) as (F & Z & m & e & P).
  assert (Z0 : (0 / BarChart_max series * 100)%float = 0%float).
  { assert (E : (0 / BarChart_max series)%float = 0%float).
    { apply Prim2SF_inj. rewrite div_spec, P. reflexivity. }
    rewrite E. reflexivity. }
  split; [|split; [|split]].
  - unfold barHeight.
    apply (mul_not_nan _ 100%float); [|reflexivity|reflexivity].
    apply div_not_nan; [|exact F|exact Z].
    destruct (nth_error s i) as [x|]; [|reflexivity].
    unfold Number_isFinite. destruct (is_finite x) eqn:Fx; [|reflexivity].
    apply is_finite_not_nan, Fx.
  - intros E. unfold barHeight. rewrite E. exact Z0.
  - intros x E Fx. unfold barHeight. rewrite E, Fx. exact Z0.
  - intros E. unfold barHeight. rewrite E. exact Z0.
Qed.

(** ** The Dashboard, the Plan tab and the month rows *)

Lemma filter_none {A} (f : A -> bool) l :
  (forall x, In x l -> f x = false) -> List.filter f l = [].
Proof.
  induction l as [|x r IH]; intros H; [reflexivity|]. cbn [List.filter].
  rewrite (H x) by now left. apply IH. intros y Hy. apply H. now right.
Qed.

Lemma monthRow_without_entries l m :
  ~ In m (allMonthsInTx l) -> monthRow l m = zeroRow m.
Proof.
  intros N.
  assert (E : forall ty c,
            sumForMonthTypeCategory l m ty c = sumForMonthTypeCategory [] m ty c).
  { intros ty c. unfold sumForMonthTypeCategory. f_equal. apply filter_none.
    intros t Ht. destruct (String.eqb_spec (monthKeyFromDate (date t)) m) as [M|M];
      [|reflexivity].
    exfalso. apply N, allMonthsInTx_In, Exists_exists. now exists t. }
  rewrite (monthRow_ext l [] m E). reflexivity.
Qed.

(** The row shown for the selected month is always the row [monthTotals]
    would build for it: without an entry in the month that row is the row
    of zeros.  Its four totals are the tracked figures of the Dashboard,
    and the Plan headers show the Dashboard's budget and tracked figures
    of their type. *)
Theorem dashboard_agrees (s : State) :
  selectedMonthStats (transactions s) (selectedMonth s)
  = monthRow (transactions s) (selectedMonth s)
  /\ tracked (dashboardBudgetVsTracked s)
     = (let r := selectedMonthStats (transactions s) (selectedMonth s) in
        {| ofIncome := income r; ofExpenses := expenses r;
           ofSavings := savings r; ofInvestments := investments r |})
  /\ (forall h, In h (planHeaders s) ->
        budgetTotal h = ofType (plan_type h) (budget (dashboardBudgetVsTracked s))
        /\ trackedTotal h = ofType (plan_type h) (tracked (dashboardBudgetVsTracked s))).
Proof.
  assert (E : selectedMonthStats (transactions s) (selectedMonth s)
              = monthRow (transactions s) (selectedMonth s)).
  { unfold selectedMonthStats, monthTotals. rewrite find_month_row.
    destruct (in_dec string_dec (selectedMonth s) (allMonthsInTx (transactions s)))
      as [I|I]; [reflexivity|].
    symmetry. apply monthRow_without_entries, I. }
  split; [exact E|]. split.
  - cbv zeta. rewrite E. reflexivity.
  - intros h Hh. unfold planHeaders in Hh. apply in_map_iff in Hh as (t & <- & _).
    cbn [budgetTotal trackedTotal plan_type]. destruct t; split; reflexivity.
Qed.
